(** * Order/payment state machine of [src/services/payment.service.ts]

    A shallow embedding of [PaymentService] (the payment orchestrator) over
    an explicit store holding the payment collection, the order collection
    and a journal of the effects performed (ledger writes and calls to the
    gateway adapter).  Every orchestrator method is a function of the store
    returning either a value or the error it throws, together with the store
    it leaves behind: a write made before a [throw] stays in the store. *)

From Stdlib Require Import ZArith String.
From stdpp Require Import base option list strings pretty.

Local Open Scope string_scope.
Local Open Scope list_scope.

(** ** Errors *)

(** The error classes imported by the service, plus [TransportError] for
    whatever the gateway adapter itself throws. *)
Inductive Exn : Type :=
  | NotFoundError (msg : string)
  | BadRequestError (msg : string)
  | InternalServerError (msg : string)
  | TransportError (msg : string).

Inductive Result (A : Type) : Type :=
  | Ok (a : A)
  | Err (e : Exn).
Arguments Ok {A} a.
Arguments Err {A} e.

(** The error kinds of the specification, as the concrete errors thrown. *)
Definition OrderNotFound : Exn := NotFoundError "Order not found".
Definition PaymentNotFound : Exn := NotFoundError "Payment not found".
Definition DuplicatePayment : Exn := BadRequestError "Payment already exists for this order".
Definition InvalidSignature : Exn := BadRequestError "Invalid payment signature".
Definition RefundInvalidState : Exn := BadRequestError "Can only refund completed payments".
Definition InvalidAmount : Exn := BadRequestError "Refund amount cannot exceed payment amount".
Definition RetryInvalidState : Exn := BadRequestError "Payment already completed".
Definition NoCheckoutAvailable : Exn := BadRequestError "No checkout URL available for retry".
Definition GatewayIntegrationFailure : Exn := InternalServerError "Failed to initiate Razorpay payment".

(** JavaScript truthiness of an optional string: [undefined] and the empty
    string are falsy. *)
Definition truthy (s : option string) : bool :=
  match s with
  | Some s => negb (String.eqb s "")
  | None => false
  end.

(** ** Documents *)

(** Amounts are integers: the service only multiplies them by 100 and
    compares them.  Statuses are the string literals the service compares
    against.  A document's [_id] is its position in its collection, so ids
    are unique and a fresh id is the length of the collection. *)
Module Payment.

(** Modelled from the spec: the payment document of section 3 (the schema
    is not part of the sources). *)
Record t : Type := mk {
  orderId : nat;
  orderNumber : string;
  userId : option string;
  sessionId : option string;
  provider : string;
  amount : Z;
  method : option string;
  status : string;
  razorpayOrderId : option string;
  checkoutId : option string;
  checkoutUrl : option string;
  transactionId : option string;
  gatewayTransactionId : option string;
  errorCode : option string;
  errorMessage : option string;
  failureReason : option string;
  refundAmount : option Z;
  refundTransactionId : option string;
  gatewayResponse : option string
}.

(** Modelled from the spec: the field updates behind the ledger writes of
    section 4.2. *)
Definition set_status (s : string) (p : t) : t :=
  mk (orderId p) (orderNumber p) (userId p) (sessionId p) (provider p)
     (amount p) (method p) s (razorpayOrderId p) (checkoutId p)
     (checkoutUrl p) (transactionId p) (gatewayTransactionId p)
     (errorCode p) (errorMessage p) (failureReason p) (refundAmount p)
     (refundTransactionId p) (gatewayResponse p).

(** Modelled from the spec: [setGatewayOrderId] on the document. *)
Definition set_razorpayOrderId (g : option string) (p : t) : t :=
  mk (orderId p) (orderNumber p) (userId p) (sessionId p) (provider p)
     (amount p) (method p) (status p) g (checkoutId p)
     (checkoutUrl p) (transactionId p) (gatewayTransactionId p)
     (errorCode p) (errorMessage p) (failureReason p) (refundAmount p)
     (refundTransactionId p) (gatewayResponse p).

(** Modelled from the spec: an optional argument left [undefined] keeps
    the stored value. *)
Definition keep {A} (new old : option A) : option A :=
  match new with Some _ => new | None => old end.

(** Modelled from the spec: [markCompleted] on the document. *)
Definition complete (txn : string) (gwTxn meth extra : option string) (p : t) : t :=
  mk (orderId p) (orderNumber p) (userId p) (sessionId p) (provider p)
     (amount p) (keep meth (method p)) "completed" (razorpayOrderId p)
     (checkoutId p) (checkoutUrl p) (Some txn)
     (keep gwTxn (gatewayTransactionId p))
     (errorCode p) (errorMessage p) (failureReason p) (refundAmount p)
     (refundTransactionId p) (keep extra (gatewayResponse p)).

(** Modelled from the spec: [markFailed] on the document. *)
Definition fail (code msg reason extra : option string) (p : t) : t :=
  mk (orderId p) (orderNumber p) (userId p) (sessionId p) (provider p)
     (amount p) (method p) "failed" (razorpayOrderId p)
     (checkoutId p) (checkoutUrl p) (transactionId p)
     (gatewayTransactionId p)
     (keep code (errorCode p)) (keep msg (errorMessage p))
     (keep reason (failureReason p)) (refundAmount p)
     (refundTransactionId p) (keep extra (gatewayResponse p)).

(** Modelled from the spec: [initiateRefund] on the document. *)
Definition refund (amt : Z) (txn : option string) (p : t) : t :=
  mk (orderId p) (orderNumber p) (userId p) (sessionId p) (provider p)
     (amount p) (method p) "refunded" (razorpayOrderId p)
     (checkoutId p) (checkoutUrl p) (transactionId p)
     (gatewayTransactionId p)
     (errorCode p) (errorMessage p) (failureReason p) (Some amt)
     (keep txn (refundTransactionId p)) (gatewayResponse p).
End Payment.

Module Order.

(** Modelled from the spec: the order document of section 3 (the schema is
    not part of the sources). *)
Record t : Type := mk {
  orderNumber : string;
  userId : option string;
  sessionId : option string;
  totalAmount : Z;
  status : string;
  paymentStatus : string;
  paymentId : option nat
}.

(** Modelled from the spec: the field updates behind [updateStatus] and
    [linkPaymentId]. *)
Definition set_status (s ps : string) (o : t) : t :=
  mk (orderNumber o) (userId o) (sessionId o) (totalAmount o) s ps (paymentId o).

(** Modelled from the spec: [linkPaymentId] on the document. *)
Definition set_paymentId (pid : nat) (o : t) : t :=
  mk (orderNumber o) (userId o) (sessionId o) (totalAmount o)
     (status o) (paymentStatus o) (Some pid).
End Order.

(** A document as the repositories hand it out: its [_id] and its fields. *)
Definition PaymentDoc : Type := nat * Payment.t.
Definition OrderDoc : Type := nat * Order.t.

(** ** Store and effects *)

Inductive Effect : Type :=
  | GatewayCreateOrder (reference : nat) (amountMinor : Z) (currency notes : string)
  | PaymentCreated (id : nat)
  | PaymentWritten (id : nat)
  | OrderStatusWritten (id : nat) (status paymentStatus : string)
  | OrderLinked (id paymentId : nat).

Record Db : Type := mkDb {
  payments : list Payment.t;
  orders : list Order.t;
  journal : list Effect
}.

(** The gateway adapter ([razorpay.service], an external collaborator). *)
Record Gateway : Type := mkGateway {
  createOrder : nat → Z → string → string → Result string;
  verifyPaymentSignature : string → string → string → bool
}.

(** ** The computation type of the service *)

Definition M (A : Type) : Type := Db → Result A * Db.

Definition ret {A} (a : A) : M A := λ db, (Ok a, db).
Definition throw {A} (e : Exn) : M A := λ db, (Err e, db).
Definition bind {A B} (m : M A) (k : A → M B) : M B :=
  λ db, match m db with
        | (Ok a, db') => k a db'
        | (Err e, db') => (Err e, db')
        end.
Definition try_catch {A} (m : M A) (handler : Exn → M A) : M A :=
  λ db, match m db with
        | (Ok a, db') => (Ok a, db')
        | (Err e, db') => handler e db'
        end.
Definition when (b : bool) (m : M unit) : M unit := if b then m else ret tt.

(** [M] with stdpp's monad notations: [x ← m; k] and [m;; k]. *)
#[global] Instance M_ret : MRet M := @ret.
#[global] Instance M_bind : MBind M := λ A B k m, bind m k.

Definition log (e : Effect) (db : Db) : Db :=
  mkDb (payments db) (orders db) (journal db ++ [e]).

(** ** Payment ledger *)

(** [PaymentRepository] is not part of the sources.  Its operations are
    the writes of section 4.2, keyed by payment id; an id that names no
    document leaves the collection as it is.  The status checks the
    specification calls preconditions are those of the service itself,
    which are embedded below from its source. *)
Module PaymentRepo.

Record CreateFields : Type := mkFields {
  f_orderId : nat;
  f_orderNumber : string;
  f_userId : option string;
  f_sessionId : option string;
  f_provider : string;
  f_amount : Z;
  f_method : option string
}.

(** Modelled from the spec: [create(fields)], status defaults to pending. *)
Definition createPayment (f : CreateFields) : M PaymentDoc := λ db,
  let id := length (payments db) in
  let p := Payment.mk (f_orderId f) (f_orderNumber f) (f_userId f)
             (f_sessionId f) (f_provider f) (f_amount f) (f_method f)
             "pending" None None None None None None None None None None None in
  (Ok (id, p),
   log (PaymentCreated id) (mkDb (payments db ++ [p]) (orders db) (journal db))).

(** Modelled from the spec: an update of one document by id, journalled. *)
Definition write (id : nat) (f : Payment.t → Payment.t) (db : Db) : Db :=
  log (PaymentWritten id) (mkDb (alter f id (payments db)) (orders db) (journal db)).

(** Modelled from the spec: the document with a given id, if any. *)
Definition read (id : nat) (db : Db) : option PaymentDoc :=
  p ← payments db !! id; Some (id, p).

(** Modelled from the spec: [setGatewayOrderId(paymentId, gatewayOrderId)]. *)
Definition updatePayment (id : nat) (razorpayOrderId : option string) : M unit := λ db,
  (Ok tt, write id (Payment.set_razorpayOrderId razorpayOrderId) db).

(** Modelled from the spec: [markCompleted], a successful no-op when the
    payment is already completed. *)
Definition markPaymentCompleted (id : nat) (txn : string)
    (gwTxn meth extra : option string) : M (option PaymentDoc) := λ db,
  match payments db !! id with
  | None => (Ok None, db)
  | Some p =>
      if bool_decide (Payment.status p = "completed") then (Ok (Some (id, p)), db)
      else let db' := write id (Payment.complete txn gwTxn meth extra) db in
           (Ok (read id db'), db')
  end.

(** Modelled from the spec: [markFailed]. *)
Definition markPaymentFailed (id : nat) (code msg reason extra : option string)
    : M (option PaymentDoc) := λ db,
  let db' := write id (Payment.fail code msg reason extra) db in
  (Ok (read id db'), db').

(** Modelled from the spec: the status write behind [resetToPending]; the
    service passes the target status. *)
Definition updatePaymentStatus (id : nat) (status : string)
    : M (option PaymentDoc) := λ db,
  let db' := write id (Payment.set_status status) db in
  (Ok (read id db'), db').

(** Modelled from the spec: [initiateRefund], recording the refund. *)
Definition initiateRefund (id : nat) (amt : Z) (txn : option string)
    : M (option PaymentDoc) := λ db,
  let db' := write id (Payment.refund amt txn) db in
  (Ok (read id db'), db').

(** Modelled from the spec: the lookups; each returns at most one record,
    the first match in insertion order. *)
Definition getPaymentById (id : nat) : M (option PaymentDoc) := λ db,
  (Ok (read id db), db).

(** Modelled from the spec: lookup by order id. *)
Definition getPaymentByOrderId (oid : nat) : M (option PaymentDoc) := λ db,
  (Ok (list_find (λ p, Payment.orderId p = oid) (payments db)), db).

(** Modelled from the spec: lookup by gateway order id. *)
Definition getPaymentByRazorpayOrderId (g : string) : M (option PaymentDoc) := λ db,
  (Ok (list_find (λ p, Payment.razorpayOrderId p = Some g) (payments db)), db).

(** Modelled from the spec: lookup by checkout id. *)
Definition getPaymentByCheckoutId (c : string) : M (option PaymentDoc) := λ db,
  (Ok (list_find (λ p, Payment.checkoutId p = Some c) (payments db)), db).

(** Modelled from the spec: lookup by transaction id. *)
Definition getPaymentByTransactionId (t : string) : M (option PaymentDoc) := λ db,
  (Ok (list_find (λ p, Payment.transactionId p = Some t) (payments db)), db).

End PaymentRepo.

(** ** Order ledger *)

(** [OrderRepository] is not part of the sources; the operations are those
    of section 4.3. *)
Module OrderRepo.

(** Modelled from the spec: [getById]. *)
Definition getOrderById (id : nat) : M (option OrderDoc) := λ db,
  (Ok (o ← orders db !! id; Some (id, o)), db).

(** Modelled from the spec: [getByOrderNumber], the first match. *)
Definition getOrderByOrderNumber (n : string) : M (option OrderDoc) := λ db,
  (Ok (list_find (λ o, Order.orderNumber o = n) (orders db)), db).

(** Modelled from the spec: [updateStatus], one compound write. *)
Definition updateOrderStatus (id : nat) (status paymentStatus : string) : M unit := λ db,
  (Ok tt,
   log (OrderStatusWritten id status paymentStatus)
     (mkDb (payments db) (alter (Order.set_status status paymentStatus) id (orders db))
        (journal db))).

(** Modelled from the spec: [linkPaymentId]. *)
Definition updateOrderPaymentId (id pid : nat) : M unit := λ db,
  (Ok tt,
   log (OrderLinked id pid)
     (mkDb (payments db) (alter (Order.set_paymentId pid) id (orders db)) (journal db))).

End OrderRepo.

(** The adapter's [createOrder], as the service calls it: the call is
    journalled, and a failure of the adapter is thrown. *)
Definition gatewayCreateOrder (gw : Gateway) (reference : nat) (amountMinor : Z)
    (currency notes : string) : M string := λ db,
  (createOrder gw reference amountMinor currency notes,
   log (GatewayCreateOrder reference amountMinor currency notes) db).

(** ** The payment service *)

Module PaymentService.
Section Service.

(** [config.RAZORPAY_KEY_ID]; the configuration is not part of the sources. *)
Variable RAZORPAY_KEY_ID : string.

Record CreateParams : Type := mkParams {
  c_orderId : nat;
  c_orderNumber : string;
  c_userId : option string;
  c_sessionId : option string;
  c_provider : string;
  c_amount : Z;
  c_method : option string;
  c_status : option string;
  c_razorpayOrderId : option string
}.

Definition createPayment (params : CreateParams) : M PaymentDoc :=
  payment ← PaymentRepo.createPayment
    (PaymentRepo.mkFields (c_orderId params) (c_orderNumber params)
       (c_userId params) (c_sessionId params) (c_provider params)
       (c_amount params) (c_method params));
  when (truthy (c_razorpayOrderId params))
    (PaymentRepo.updatePayment payment.1 (c_razorpayOrderId params));;
  when (bool_decide (c_status params = Some "completed"))
    (_ ← PaymentRepo.markPaymentCompleted payment.1
           ("cod_" +:+ pretty payment.1) None (Some "cod") None;
     ret tt);;
  OrderRepo.updateOrderPaymentId (c_orderId params) payment.1;;
  ret payment.

Definition processCodPayment (orderId : nat) : M PaymentDoc :=
  order ← OrderRepo.getOrderById orderId;
  match order with
  | None => throw OrderNotFound
  | Some (order_id, order) =>
      existingPayment ← PaymentRepo.getPaymentByOrderId orderId;
      match existingPayment with
      | Some _ => throw DuplicatePayment
      | None =>
          payment ← createPayment
            (mkParams order_id (Order.orderNumber order) (Order.userId order)
               (Order.sessionId order) "cod" (Order.totalAmount order)
               (Some "cod") (Some "completed") None);
          OrderRepo.updateOrderStatus order_id "confirmed" "completed";;
          ret payment
      end
  end.

Record Checkout : Type := mkCheckout {
  paymentId : nat;
  razorpayOrderId : string;
  razorpayKeyId : string;
  amount : Z;
  currency : string;
  orderNumber : string
}.

Definition initiateRazorpayPayment (gw : Gateway) (orderId : nat) : M Checkout :=
  order ← OrderRepo.getOrderById orderId;
  match order with
  | None => throw OrderNotFound
  | Some (order_id, order) =>
      payment ← PaymentRepo.getPaymentByOrderId orderId;
      let fresh : M Checkout :=
        try_catch
          (razorpayOrder_id ← gatewayCreateOrder gw order_id
               (Order.totalAmount order * 100) "INR" (Order.orderNumber order);
           payment ← createPayment
             (mkParams order_id (Order.orderNumber order) (Order.userId order)
                (Order.sessionId order) "razorpay" (Order.totalAmount order)
                None None (Some razorpayOrder_id));
           OrderRepo.updateOrderStatus order_id "payment_pending" "pending";;
           ret (mkCheckout payment.1 razorpayOrder_id RAZORPAY_KEY_ID
                  (Order.totalAmount order * 100) "INR" (Order.orderNumber order)))
          (λ _, throw GatewayIntegrationFailure) in
      match payment with
      | Some (payment_id, p) =>
          if truthy (Payment.razorpayOrderId p) then
            ret (mkCheckout payment_id (default "" (Payment.razorpayOrderId p))
                   RAZORPAY_KEY_ID (Order.totalAmount order * 100) "INR"
                   (Order.orderNumber order))
          else fresh
      | None => fresh
      end
  end.

Record VerifyParams : Type := mkVerify {
  v_orderId : string;
  v_razorpayOrderId : string;
  v_razorpayPaymentId : string;
  v_razorpaySignature : string
}.

Definition verifyRazorpayPayment (gw : Gateway) (params : VerifyParams)
    : M (option PaymentDoc) :=
  let isValid := verifyPaymentSignature gw (v_razorpayOrderId params)
                   (v_razorpayPaymentId params) (v_razorpaySignature params) in
  if negb isValid then throw InvalidSignature
  else
    payment ← PaymentRepo.getPaymentByRazorpayOrderId (v_razorpayOrderId params);
    match payment with
    | None => throw PaymentNotFound
    | Some (payment_id, p) =>
        if bool_decide (Payment.status p = "completed") then ret (Some (payment_id, p))
        else
          updatedPayment ← PaymentRepo.markPaymentCompleted payment_id
            (v_razorpayPaymentId params) (Some (v_razorpayOrderId params))
            (Some "razorpay") (Some (v_razorpaySignature params));
          OrderRepo.updateOrderStatus (Payment.orderId p) "confirmed" "completed";;
          ret updatedPayment
    end.

(** The lookup chain that opens both webhook handlers (lines 231-242 and
    281-292 are the same [if]/[else if] cascade). *)
Definition resolvePayment (checkoutId orderNumber transactionId : option string)
    : M (option PaymentDoc) :=
  if truthy checkoutId then
    PaymentRepo.getPaymentByCheckoutId (default "" checkoutId)
  else if truthy orderNumber then
    order ← OrderRepo.getOrderByOrderNumber (default "" orderNumber);
    match order with
    | Some (order_id, _) => PaymentRepo.getPaymentByOrderId order_id
    | None => ret None
    end
  else if truthy transactionId then
    PaymentRepo.getPaymentByTransactionId (default "" transactionId)
  else ret None.

Record SuccessEvent : Type := mkSuccess {
  s_checkoutId : option string;
  s_transactionId : string;
  s_gatewayTransactionId : option string;
  s_orderNumber : option string;
  s_method : option string;
  s_amount : option Z;
  s_webhookData : option string
}.

Definition handlePaymentSuccess (params : SuccessEvent) : M (option PaymentDoc) :=
  payment ← resolvePayment (s_checkoutId params) (s_orderNumber params)
              (Some (s_transactionId params));
  match payment with
  | None => throw PaymentNotFound
  | Some (payment_id, p) =>
      if bool_decide (Payment.status p = "completed") then ret (Some (payment_id, p))
      else
        updatedPayment ← PaymentRepo.markPaymentCompleted payment_id
          (s_transactionId params) (s_gatewayTransactionId params)
          (s_method params) (s_webhookData params);
        OrderRepo.updateOrderStatus (Payment.orderId p) "confirmed" "completed";;
        ret updatedPayment
  end.

Record FailureEvent : Type := mkFailure {
  f_checkoutId : option string;
  f_transactionId : option string;
  f_orderNumber : option string;
  f_errorCode : option string;
  f_errorMessage : option string;
  f_failureReason : option string;
  f_webhookData : option string
}.

Definition handlePaymentFailure (params : FailureEvent) : M (option PaymentDoc) :=
  payment ← resolvePayment (f_checkoutId params) (f_orderNumber params)
              (f_transactionId params);
  match payment with
  | None => throw PaymentNotFound
  | Some (payment_id, p) =>
      updatedPayment ← PaymentRepo.markPaymentFailed payment_id
        (f_errorCode params) (f_errorMessage params) (f_failureReason params)
        (f_webhookData params);
      OrderRepo.updateOrderStatus (Payment.orderId p) "payment_failed" "failed";;
      ret updatedPayment
  end.

Record RefundParams : Type := mkRefund {
  r_paymentId : nat;
  r_refundAmount : Z;
  r_refundTransactionId : option string
}.

Definition initiateRefund (params : RefundParams) : M (option PaymentDoc) :=
  payment ← PaymentRepo.getPaymentById (r_paymentId params);
  match payment with
  | None => throw PaymentNotFound
  | Some (payment_id, p) =>
      if negb (bool_decide (Payment.status p = "completed")) then
        throw RefundInvalidState
      else if (Payment.amount p <? r_refundAmount params)%Z then
        throw InvalidAmount
      else
        updatedPayment ← PaymentRepo.initiateRefund payment_id
          (r_refundAmount params) (r_refundTransactionId params);
        OrderRepo.updateOrderStatus (Payment.orderId p) "refunded" "refunded";;
        ret updatedPayment
  end.

Definition retryPayment (orderId : nat) : M (string * nat) :=
  payment ← PaymentRepo.getPaymentByOrderId orderId;
  match payment with
  | None => throw PaymentNotFound
  | Some (payment_id, p) =>
      if bool_decide (Payment.status p = "completed") then throw RetryInvalidState
      else
        _ ← PaymentRepo.updatePaymentStatus payment_id "pending";
        if truthy (Payment.checkoutUrl p) then
          ret (default "" (Payment.checkoutUrl p), payment_id)
        else throw NoCheckoutAvailable
  end.

(** *** The operations as one transition system *)

Inductive Op : Type :=
  | ProcessCodPayment (orderId : nat)
  | InitiateGatewayPayment (gw : Gateway) (orderId : nat)
  | VerifyGatewayPayment (gw : Gateway) (params : VerifyParams)
  | HandlePaymentSuccess (params : SuccessEvent)
  | HandlePaymentFailure (params : FailureEvent)
  | InitiateRefund (params : RefundParams)
  | RetryPayment (orderId : nat).

(** The store an operation leaves behind, whether it returns or throws. *)
Definition step (op : Op) (db : Db) : Db :=
  match op with
  | ProcessCodPayment o => (processCodPayment o db).2
  | InitiateGatewayPayment gw o => (initiateRazorpayPayment gw o db).2
  | VerifyGatewayPayment gw v => (verifyRazorpayPayment gw v db).2
  | HandlePaymentSuccess e => (handlePaymentSuccess e db).2
  | HandlePaymentFailure e => (handlePaymentFailure e db).2
  | InitiateRefund r => (initiateRefund r db).2
  | RetryPayment o => (retryPayment o db).2
  end.

Definition run (ops : list Op) (db : Db) : Db := foldl (λ d op, step op d) db ops.

(** *** Read-only entry points *)

Definition getPaymentById (paymentId : nat) : M PaymentDoc :=
  payment ← PaymentRepo.getPaymentById paymentId;
  match payment with
  | None => throw (NotFoundError "Payment not found")
  | Some payment => ret payment
  end.

Definition getPaymentByOrderId (orderId : nat) : M PaymentDoc :=
  payment ← PaymentRepo.getPaymentByOrderId orderId;
  match payment with
  | None => throw (NotFoundError "Payment not found for this order")
  | Some payment => ret payment
  end.

(** The error an operation throws, if any, and the store it leaves. *)
Definition outcome {A} (r : Result A * Db) : option Exn * Db :=
  (match r.1 with Ok _ => None | Err e => Some e end, r.2).

Definition exec (op : Op) (db : Db) : option Exn * Db :=
  match op with
  | ProcessCodPayment o => outcome (processCodPayment o db)
  | InitiateGatewayPayment gw o => outcome (initiateRazorpayPayment gw o db)
  | VerifyGatewayPayment gw v => outcome (verifyRazorpayPayment gw v db)
  | HandlePaymentSuccess e => outcome (handlePaymentSuccess e db)
  | HandlePaymentFailure e => outcome (handlePaymentFailure e db)
  | InitiateRefund r => outcome (initiateRefund r db)
  | RetryPayment o => outcome (retryPayment o db)
  end.

End Service.
End PaymentService.


(** ** Product image upload *)

(** [uploadProductImageToS3].  JavaScript strings are sequences of UTF-16
    code units; the regular expression is applied per code unit. *)
Module S3Service.

Definition jsstring : Type := list N.

(** A literal of the source, as code units. *)
Definition lit (s : string) : jsstring :=
  (λ c, Ascii.N_of_ascii c) <$> list_ascii_of_string s.

(** The class [\s] of a JavaScript regular expression: white space and
    line terminators. *)
Definition is_space (c : N) : bool :=
  (N.leb 9 c && N.leb c 13) || N.eqb c 32 || N.eqb c 160 || N.eqb c 5760
  || (N.leb 8192 c && N.leb c 8202) || N.eqb c 8232 || N.eqb c 8233
  || N.eqb c 8239 || N.eqb c 8287 || N.eqb c 12288 || N.eqb c 65279.

(** [s.replace(/\s+/g, "_")]: every maximal run of white space becomes one
    underscore.  [in_run] tells that the previous code unit was white space. *)
Fixpoint replace_runs (in_run : bool) (s : jsstring) : jsstring :=
  match s with
  | [] => []
  | c :: rest =>
      if is_space c then
        if in_run then replace_runs true rest
        else 95%N :: replace_runs true rest
      else c :: replace_runs false rest
  end.

Definition replace_whitespace (s : jsstring) : jsstring := replace_runs false s.

Record File : Type := mkFile {
  originalname : jsstring;
  buffer : list N;
  mimetype : jsstring;
  size : N
}.

Record PutObject : Type := mkPut {
  Bucket : jsstring;
  Key : jsstring;
  Body : list N;
  ContentType : jsstring
}.

Record Uploaded : Type := mkUploaded {
  url : jsstring;
  key : jsstring;
  filename : jsstring;
  u_size : N;
  mimeType : jsstring
}.

Section Upload.

(** [config.S3_BUCKET_NAME] and [config.AWS_REGION]; the configuration is
    not part of the sources. *)
Variable S3_BUCKET_NAME : jsstring.
Variable AWS_REGION : jsstring.

(** [s3.putObject(...).promise()], the external store, and [Date.now()],
    the clock, are inputs; the [console] output is left out. *)
Definition uploadProductImageToS3 (putObject : PutObject → Result unit) (now : N)
    (file : File) : Result Uploaded :=
  let cleanName := replace_whitespace (originalname file) in
  let key := lit "mahaveer-petals/products/" ++ lit (pretty now) ++ lit "-" ++ cleanName in
  match putObject (mkPut S3_BUCKET_NAME key (buffer file) (mimetype file)) with
  | Err _ => Err (InternalServerError "Failed to upload product image to S3")
  | Ok _ =>
      Ok (mkUploaded
            (lit "https://" ++ S3_BUCKET_NAME ++ lit ".s3." ++ AWS_REGION
               ++ lit ".amazonaws.com/" ++ key)
            key (originalname file) (size file) (mimetype file))
  end.

End Upload.
End S3Service.
(** * Vocabulary of the properties *)

Import PaymentService.

(** ** Observations on the journal *)

Definition is_gateway_call (e : Effect) : bool :=
  match e with GatewayCreateOrder _ _ _ _ => true | _ => false end.

(** Number of times the adapter's create operation has been invoked. *)
Definition count_calls (j : list Effect) : nat :=
  length (List.filter is_gateway_call j).

Definition gateway_calls (db : Db) : nat := count_calls (journal db).

Definition is_confirmation (e : Effect) : bool :=
  match e with
  | OrderStatusWritten _ status _ => String.eqb status "confirmed"
  | _ => false
  end.

(** Order confirmations written so far. *)
Definition confirmations (db : Db) : nat :=
  length (List.filter is_confirmation (journal db)).

(** ** What [createPayment] stores *)

(** The transaction id given to a cash-on-delivery payment. *)
Definition cod_transaction_id (payment_id : nat) : string := "cod_" +:+ pretty payment_id.

Definition created_payment (params : CreateParams) : Payment.t :=
  Payment.mk (c_orderId params) (c_orderNumber params) (c_userId params)
    (c_sessionId params) (c_provider params) (c_amount params) (c_method params)
    "pending" None None None None None None None None None None None.

(** The document with id [id] once [createPayment] is through. *)
Definition stored_payment (id : nat) (params : CreateParams) : Payment.t :=
  let p := created_payment params in
  let p := if truthy (c_razorpayOrderId params)
           then Payment.set_razorpayOrderId (c_razorpayOrderId params) p else p in
  if bool_decide (c_status params = Some "completed")
  then Payment.complete ("cod_" +:+ pretty id) None (Some "cod") None p else p.

Definition createPayment_journal (id : nat) (params : CreateParams) : list Effect :=
  [PaymentCreated id]
  ++ (if truthy (c_razorpayOrderId params) then [PaymentWritten id] else [])
  ++ (if bool_decide (c_status params = Some "completed") then [PaymentWritten id] else [])
  ++ [OrderLinked (c_orderId params) id].

(** The parameters [initiateRazorpayPayment] hands to [createPayment]. *)
Definition gateway_params (orderId : nat) (order : Order.t) (g : string) : CreateParams :=
  mkParams orderId (Order.orderNumber order) (Order.userId order)
    (Order.sessionId order) "razorpay" (Order.totalAmount order) None None (Some g).

(** The guard of [initiateRazorpayPayment]: the payment found for the order,
    when it already holds a gateway order id. *)
Definition existing_gateway_order (db : Db) (orderId : nat) : option (nat * string) :=
  match list_find (λ p, Payment.orderId p = orderId) (payments db) with
  | Some (payment_id, p) =>
      if truthy (Payment.razorpayOrderId p)
      then Some (payment_id, default "" (Payment.razorpayOrderId p))
      else None
  | None => None
  end.

(** ** The webhook lookup rule *)

(** The rule in the words of the specification: exactly one strategy,
    chosen by the identifying field the event carries, checkout id first,
    then order number, then transaction id.  A field is carried when it is
    set and not empty. *)
Inductive Strategy : Type :=
  | ByCheckoutId (checkoutId : string)
  | ByOrderNumber (orderNumber : string)
  | ByTransactionId (transactionId : string)
  | NoStrategy.

Definition carried (field : option string) : option string :=
  match field with
  | Some s => if decide (s = "") then None else Some s
  | None => None
  end.

Definition chosen_strategy (checkoutId orderNumber transactionId : option string) : Strategy :=
  match carried checkoutId with
  | Some c => ByCheckoutId c
  | None =>
      match carried orderNumber with
      | Some n => ByOrderNumber n
      | None =>
          match carried transactionId with
          | Some t => ByTransactionId t
          | None => NoStrategy
          end
      end
  end.

Definition lookup_with (s : Strategy) (db : Db) : option PaymentDoc :=
  match s with
  | ByCheckoutId c => list_find (λ p, Payment.checkoutId p = Some c) (payments db)
  | ByOrderNumber n =>
      match list_find (λ o, Order.orderNumber o = n) (orders db) with
      | Some (order_id, _) => list_find (λ p, Payment.orderId p = order_id) (payments db)
      | None => None
      end
  | ByTransactionId t => list_find (λ p, Payment.transactionId p = Some t) (payments db)
  | NoStrategy => None
  end.

Definition success_strategy (e : SuccessEvent) : Strategy :=
  chosen_strategy (s_checkoutId e) (s_orderNumber e) (Some (s_transactionId e)).

Definition failure_strategy (e : FailureEvent) : Strategy :=
  chosen_strategy (f_checkoutId e) (f_orderNumber e) (f_transactionId e).

(** ** Status transitions and their effect on the ledgers *)

Definition status_at (db : Db) (i : nat) : option string :=
  Payment.status <$> payments db !! i.

(** The status changes the operations perform on a stored payment: each
    rule is one guarded ledger write of the service. *)
Inductive transition : Op → string → string → Prop :=
  | verify_completes gw v s :
      s ≠ "completed" → transition (VerifyGatewayPayment gw v) s "completed"
  | success_completes e s :
      s ≠ "completed" → transition (HandlePaymentSuccess e) s "completed"
  | failure_fails e s :
      transition (HandlePaymentFailure e) s "failed"
  | refund_refunds r :
      transition (InitiateRefund r) "completed" "refunded"
  | retry_resets o s :
      s ≠ "completed" → transition (RetryPayment o) s "pending".

(** The invariant of the specification, on a payment status and the order
    status pair written together with it. *)
Definition consistent_triple (st s ps : string) : Prop :=
  (st = "completed" ↔ s = "confirmed" ∧ ps = "completed") ∧
  (st = "failed" → s = "payment_failed") ∧
  (st = "refunded" → s = "refunded").

(** What an operation does to the two ledgers: nothing; one payment
    appended and its order linked and rewritten; one payment and its order
    rewritten together; one payment reset with its order left alone. *)
Inductive ledger_effect (op : Op) (db db' : Db) : Prop :=
  | effect_none :
      payments db' = payments db → orders db' = orders db →
      ledger_effect op db db'
  | effect_create x s ps :
      payments db' = payments db ++ [x] →
      orders db' = alter (Order.set_status s ps) (Payment.orderId x)
                     (alter (Order.set_paymentId (length (payments db)))
                        (Payment.orderId x) (orders db)) →
      consistent_triple (Payment.status x) s ps →
      ledger_effect op db db'
  | effect_write pid q f s ps :
      payments db !! pid = Some q →
      payments db' = alter f pid (payments db) →
      orders db' = alter (Order.set_status s ps) (Payment.orderId q) (orders db) →
      Payment.orderId (f q) = Payment.orderId q →
      transition op (Payment.status q) (Payment.status (f q)) →
      consistent_triple (Payment.status (f q)) s ps →
      ledger_effect op db db'
  | effect_reset pid q :
      payments db !! pid = Some q →
      payments db' = alter (Payment.set_status "pending") pid (payments db) →
      orders db' = orders db →
      transition op (Payment.status q) "pending" →
      ledger_effect op db db'.

(** ** The invariants of the specification *)

(** The sink property in the words of the specification: a completed
    payment changes status only through a refund, to refunded; a refunded
    payment never changes status. *)
Definition sinks_as_specified (key : string) : Prop :=
  ∀ (op : Op) (db : Db) (i : nat),
    (status_at db i = Some "completed" →
       status_at (step key op db) i = Some "completed" ∨
       ((∃ r, op = InitiateRefund r) ∧ status_at (step key op db) i = Some "refunded")) ∧
    (status_at db i = Some "refunded" →
       status_at (step key op db) i = Some "refunded").

(** The cross-entity invariant for one payment and its order. *)
Definition consistent_pair (p : Payment.t) (o : Order.t) : Prop :=
  consistent_triple (Payment.status p) (Order.status o) (Order.paymentStatus o).

Definition consistent (db : Db) : Prop :=
  ∀ i p o,
    payments db !! i = Some p →
    orders db !! Payment.orderId p = Some o →
    consistent_pair p o.

Definition one_payment_per_order (db : Db) : Prop :=
  ∀ i j p q,
    payments db !! i = Some p → payments db !! j = Some q →
    Payment.orderId p = Payment.orderId q → i = j.

(** ** Stores, events and adapters used as concrete inputs *)

Definition order_O1 (status paymentStatus : string) (paymentId : option nat) : Order.t :=
  Order.mk "O1" (Some "u1") None 1500 status paymentStatus paymentId.

Definition gateway_payment_O1 (status : string) : Payment.t :=
  Payment.mk 0 "O1" (Some "u1") None "razorpay" 1500 None status (Some "gw_1")
    None None None None None None None None None None.

(** One order, no payment yet. *)
Definition fresh_order_db : Db :=
  mkDb [] [order_O1 "created" "pending" None] [].

(** A gateway payment waiting for its outcome. *)
Definition pending_gateway_db : Db :=
  mkDb [gateway_payment_O1 "pending"] [order_O1 "payment_pending" "pending" (Some 0)] [].

(** A failed gateway payment without checkout URL. *)
Definition failed_gateway_db : Db :=
  mkDb [gateway_payment_O1 "failed"] [order_O1 "payment_failed" "failed" (Some 0)] [].

(** A completed cash-on-delivery payment. *)
Definition confirmed_cod_db : Db :=
  mkDb [Payment.mk 0 "O1" (Some "u1") None "cod" 1500 (Some "cod") "completed" None
          None None (Some "cod_0") None None None None None None None]
       [order_O1 "confirmed" "completed" (Some 0)] [].

(** A refunded gateway payment. *)
Definition refunded_db : Db :=
  mkDb [Payment.mk 0 "O1" (Some "u1") None "razorpay" 1500 (Some "razorpay") "refunded"
          (Some "gw_1") None None (Some "pay_9") (Some "gw_1") None None None
          (Some 1500%Z) None None]
       [order_O1 "refunded" "refunded" (Some 0)] [].

Definition working_gateway (id : string) : Gateway :=
  mkGateway (λ _ _ _ _, Ok id) (λ _ _ _, true).

(** An adapter that rejects every signature. *)
Definition rejecting_gateway : Gateway :=
  mkGateway (λ _ _ _ _, Ok "gw_1") (λ _ _ _, false).

Definition failing_gateway : Gateway :=
  mkGateway (λ _ _ _ _, Err (TransportError "ECONNRESET")) (λ _ _ _, true).

Definition webhook_pay_9 : SuccessEvent :=
  mkSuccess None "pay_9" None (Some "O1") None None None.

(** A success event carrying a checkout id no payment has, and the order
    number of O1. *)
Definition webhook_unknown_checkout : SuccessEvent :=
  mkSuccess (Some "chk_9") "pay_9" None (Some "O1") None None None.

Definition failure_for_O1 : FailureEvent :=
  mkFailure None None (Some "O1") (Some "BAD_REQUEST_ERROR") None None None.

(** A failure event carrying all four failure fields. *)
Definition declined_for_O1 : FailureEvent :=
  mkFailure None None (Some "O1") (Some "BAD_REQUEST_ERROR")
    (Some "Payment declined by the bank") (Some "payment_failed")
    (Some "payment.failed").


Definition cod_then_gateway : list Op :=
  [ProcessCodPayment 0; InitiateGatewayPayment (working_gateway "gw_1") 0].

(** ** Proof tools *)

Arguments count_calls : simpl never.
Arguments gateway_calls : simpl never.
Arguments truthy : simpl never.

(** Unfolding of the monad and of the ledger operations. *)
Ltac unfold_m :=
  unfold mbind, M_bind, mret, M_ret, bind, ret, throw, when, try_catch in *.

Ltac unfold_repo :=
  unfold PaymentRepo.getPaymentById, PaymentRepo.getPaymentByOrderId,
    PaymentRepo.getPaymentByRazorpayOrderId, PaymentRepo.getPaymentByCheckoutId,
    PaymentRepo.getPaymentByTransactionId, PaymentRepo.createPayment,
    PaymentRepo.updatePayment, PaymentRepo.markPaymentCompleted,
    PaymentRepo.markPaymentFailed, PaymentRepo.updatePaymentStatus,
    PaymentRepo.initiateRefund, OrderRepo.getOrderById,
    OrderRepo.getOrderByOrderNumber, OrderRepo.updateOrderStatus,
    OrderRepo.updateOrderPaymentId, gatewayCreateOrder in *.

(** Case analysis on a status test of the source. *)
Ltac case_status p H :=
  destruct (decide (Payment.status p = "completed")) as [H|H];
  [rewrite ?(bool_decide_eq_true_2 _ H) | rewrite ?(bool_decide_eq_false_2 _ H)].

(** The four status triples the service writes are closed string facts. *)
Ltac solve_triple :=
  unfold consistent_triple;
  split_and!; [split; [intros ?|intros [? ?]]|intros ?|intros ?];
  first [done|discriminate].

Create HintDb ledger.


(** ** Frames: what the operations leave alone *)

(** The fields of a payment no operation rewrites once it is stored. *)
Definition keeps_identity (p p' : Payment.t) : Prop :=
  Payment.orderId p' = Payment.orderId p ∧
  Payment.orderNumber p' = Payment.orderNumber p ∧
  Payment.userId p' = Payment.userId p ∧
  Payment.sessionId p' = Payment.sessionId p ∧
  Payment.provider p' = Payment.provider p ∧
  Payment.amount p' = Payment.amount p ∧
  Payment.razorpayOrderId p' = Payment.razorpayOrderId p ∧
  Payment.checkoutId p' = Payment.checkoutId p ∧
  Payment.checkoutUrl p' = Payment.checkoutUrl p.

(** The fields of an order no operation rewrites. *)
Definition same_order (o o' : Order.t) : Prop :=
  Order.orderNumber o' = Order.orderNumber o ∧
  Order.userId o' = Order.userId o ∧
  Order.sessionId o' = Order.sessionId o ∧
  Order.totalAmount o' = Order.totalAmount o.

(** Calls to the adapter's create operation one operation may make. *)
Definition calls_allowed (op : Op) : nat :=
  match op with InitiateGatewayPayment _ _ => 1 | _ => 0 end.

(** What one operation does to the store, with the error it throws:
    nothing but journal entries; one payment appended; one payment
    rewritten in place, its order possibly rewritten with it. *)
Inductive op_effect (op : Op) (db : Db) (err : option Exn) (db' : Db) : Prop :=
  | op_none k :
      payments db' = payments db →
      orders db' = orders db →
      journal db' = journal db ++ k →
      (count_calls k ≤ calls_allowed op)%nat →
      op_effect op db err db'
  | op_create x g k :
      err = None →
      payments db' = payments db ++ [x] →
      (calls_allowed op = 0 → Forall (λ p, Payment.orderId p ≠ Payment.orderId x) (payments db)) →
      orders db' = alter g (Payment.orderId x) (orders db) →
      (∀ o, same_order o (g o)) →
      journal db' = journal db ++ k →
      (count_calls k ≤ calls_allowed op)%nat →
      op_effect op db err db'
  | op_write pid q q' g k :
      (err = None ∨ (err = Some NoCheckoutAvailable ∧ ∃ o, op = RetryPayment o)) →
      payments db !! pid = Some q →
      payments db' = <[pid := q']> (payments db) →
      keeps_identity q q' →
      orders db' = alter g (Payment.orderId q) (orders db) →
      (∀ o, same_order o (g o)) →
      journal db' = journal db ++ k →
      count_calls k = 0 →
      op_effect op db err db'.

(** ** Runs that never give an order a second payment *)

(** [initiateRazorpayPayment] is the one operation that can add a payment
    to an order that has one: it does so when the payment it finds holds
    no gateway order id. *)
Definition reuses_or_starts (op : Op) (db : Db) : Prop :=
  match op with
  | InitiateGatewayPayment _ o =>
      list_find (λ p, Payment.orderId p = o) (payments db) = None ∨
      is_Some (existing_gateway_order db o)
  | _ => True
  end.

Fixpoint guarded_run (key : string) (ops : list Op) (db : Db) : Prop :=
  match ops with
  | [] => True
  | op :: ops => reuses_or_starts op db ∧ guarded_run key ops (step key op db)
  end.

(** ** Concrete inputs, continued *)

(** A failed gateway payment that stored a checkout URL. *)
Definition failed_with_url_db : Db :=
  mkDb [Payment.mk 0 "O1" (Some "u1") None "razorpay" 1500 None "failed" (Some "gw_1")
          (Some "chk_1") (Some "https://pay.example/chk_1") None None
          (Some "BAD_REQUEST_ERROR") None None None None None]
       [order_O1 "payment_failed" "failed" (Some 0)] [].

Definition callback_gw_1 : VerifyParams := mkVerify "0" "gw_1" "pay_9" "sig_9".

Definition two_words_png : S3Service.File :=
  S3Service.mkFile (S3Service.lit "red  rose.png") [137%N; 80%N] (S3Service.lit "image/png") 2.

Definition s3_accepting : S3Service.PutObject → Result unit := λ _, Ok tt.

Definition checkout_then_webhooks : list Op :=
  [InitiateGatewayPayment (working_gateway "gw_1") 0;
   HandlePaymentSuccess webhook_pay_9;
   HandlePaymentSuccess webhook_pay_9;
   ProcessCodPayment 0].

(** ** White space *)

Definition no_space (s : S3Service.jsstring) : Prop :=
  Forall (λ c, S3Service.is_space c = false) s.

(** ** Proof tools, continued *)

(** An operation that stops before any write. *)
Ltac stops_clean :=
  eapply (op_none _ _ _ _ []); cbn;
  [reflexivity | reflexivity | by rewrite app_nil_r
  | unfold count_calls; cbn; lia].

Ltac journal_tail := cbn; rewrite <- ?app_assoc; reflexivity.
(** * Properties *)

(** ** Lists and lookups *)

(** A document appended to a collection in which nothing matches is the
    one a lookup finds. *)
Lemma list_find_snoc {A} (P : A → Prop) `{∀ x, Decision (P x)} (l : list A) (x : A) :
  list_find P l = None → P x → list_find P (l ++ [x]) = Some (length l, x).
Proof.
  intros Hl Hx. rewrite list_find_app_r by done. cbn.
  by rewrite decide_True.
Qed.

Lemma alter_snoc {A} (f : A → A) (l : list A) (x : A) :
  alter f (length l) (l ++ [x]) = l ++ [f x].
Proof.
  induction l as [|y l IH]; cbn; [done|]. by rewrite IH.
Qed.

Lemma alter_as_insert {A} (f : A → A) (l : list A) (i : nat) (x : A) :
  l !! i = Some x → alter f i l = <[i := f x]> l.
Proof.
  intros Hx. apply list_eq. intros j. destruct (decide (i = j)) as [->|Hij].
  - rewrite list_lookup_alter_eq, Hx, list_lookup_insert_eq; [done|].
    by eapply lookup_lt_Some.
  - by rewrite list_lookup_alter_ne, list_lookup_insert_ne.
Qed.

(** Altering position [k] with a function that does not change the truth
    of [P] at that position leaves the first match where it was. *)
Lemma list_find_alter_stable {A} (P : A → Prop) `{∀ x, Decision (P x)}
    (g : A → A) (k : nat) (l : list A) (i : nat) (x : A) :
  list_find P l = Some (i, x) →
  (∀ y, l !! k = Some y → (P (g y) ↔ P y)) →
  list_find P (alter g k l) = Some (i, if decide (i = k) then g x else x).
Proof.
  intros (Hx & HP & Hleast)%list_find_Some Hg.
  apply list_find_Some. split_and!.
  - case_decide as Hik.
    + subst k. by rewrite list_lookup_alter_eq, Hx.
    + by rewrite list_lookup_alter_ne.
  - case_decide as Hik; [|done]. subst k. by apply Hg.
  - intros j y Hj Hlt. destruct (decide (k = j)) as [->|Hkj].
    + rewrite list_lookup_alter_eq in Hj.
      destruct (l !! j) as [z|] eqn:Hz; [|done]. injection Hj as <-.
      rewrite (Hg z eq_refl). by eapply Hleast.
    + rewrite list_lookup_alter_ne in Hj by done. by eapply Hleast.
Qed.

Lemma find_by_order_None (oid : nat) (l : list Payment.t) :
  ¬ Exists (λ p, Payment.orderId p = oid) l →
  list_find (λ p, Payment.orderId p = oid) l = None.
Proof.
  intros H. apply list_find_None. apply Forall_forall. intros p Hp Hq.
  apply H. apply Exists_exists. eauto.
Qed.

Lemma find_by_order_Some (oid : nat) (l : list Payment.t) :
  Exists (λ p, Payment.orderId p = oid) l →
  is_Some (list_find (λ p, Payment.orderId p = oid) l).
Proof.
  intros (p & Hp & Hq)%Exists_exists. by eapply list_find_elem_of.
Qed.

(** ** Truthiness *)

Lemma truthy_nonempty (g : string) : g ≠ "" → truthy (Some g) = true.
Proof.
  intros Hg. unfold truthy. apply negb_true_iff. by apply String.eqb_neq.
Qed.

Lemma truthy_carried (field : option string) :
  truthy field = true → carried field = Some (default "" field).
Proof.
  unfold truthy. destruct field as [s|]; cbn; [|done].
  intros Hs. case_decide as He; [|done]. by subst s.
Qed.

Lemma falsy_carried (field : option string) :
  truthy field = false → carried field = None.
Proof.
  unfold truthy. destruct field as [s|]; cbn; [|done].
  intros Hs. case_decide as He; [done|].
  by apply negb_false_iff, String.eqb_eq in Hs.
Qed.

(** ** Journal *)

Lemma count_calls_app (j k : list Effect) :
  count_calls (j ++ k) = count_calls j + count_calls k.
Proof. unfold count_calls. by rewrite List.filter_app, length_app. Qed.

Lemma cod_transaction_id_inj (i j : nat) :
  cod_transaction_id i = cod_transaction_id j → i = j.
Proof.
  unfold cod_transaction_id. intros H. cbn in H.
  injection H as H. by apply (inj pretty).
Qed.

(** ** The shared constructor *)

Lemma pending_not_completed : bool_decide ("pending" = "completed") = false.
Proof. reflexivity. Qed.

Lemma refunded_not_completed : bool_decide ("refunded" = "completed") = false.
Proof. reflexivity. Qed.

Lemma createPayment_eq (params : CreateParams) (db : Db) :
  let id := length (payments db) in
  createPayment params db =
  (Ok (id, created_payment params),
   mkDb (payments db ++ [stored_payment id params])
        (alter (Order.set_paymentId id) (c_orderId params) (orders db))
        (journal db ++ createPayment_journal id params)).
Proof.
  unfold createPayment, stored_payment, createPayment_journal, PaymentRepo.createPayment.
  unfold_m. cbn.
  destruct (truthy (c_razorpayOrderId params)) eqn:Ht;
    destruct (bool_decide (c_status params = Some "completed")) eqn:Hs; cbn;
    unfold PaymentRepo.markPaymentCompleted, PaymentRepo.write, log,
      OrderRepo.updateOrderPaymentId, PaymentRepo.read; cbn;
    rewrite ?alter_snoc; cbn;
    rewrite ?(list_lookup_middle _ [] _ (length (payments db))) by done; cbn;
    rewrite ?pending_not_completed; cbn;
    rewrite ?alter_snoc; cbn; rewrite <- ?app_assoc; cbn; try done.
Qed.

Lemma stored_gateway_payment (id orderId : nat) (order : Order.t) (g : string) :
  g ≠ "" →
  stored_payment id (gateway_params orderId order g) =
  Payment.set_razorpayOrderId (Some g) (created_payment (gateway_params orderId order g)).
Proof.
  intros Hg. unfold stored_payment, gateway_params. cbn.
  by rewrite (truthy_nonempty g Hg).
Qed.

Lemma stored_gateway_status (id orderId : nat) (order : Order.t) (g : string) :
  Payment.status (stored_payment id (gateway_params orderId order g)) = "pending" ∧
  Payment.orderId (stored_payment id (gateway_params orderId order g)) = orderId.
Proof.
  unfold stored_payment, gateway_params. cbn.
  by destruct (truthy (Some g)).
Qed.

(** ** Cash on delivery *)

(** C6.  [processCodPayment] throws NotFound for an absent order and
    DuplicatePayment when some payment of the order exists, leaving the
    store untouched; otherwise it appends one payment with provider cod,
    status completed and the transaction id derived from its id, confirms
    the order, calls no gateway, and a second call is rejected as a
    duplicate with the order still confirmed. *)
Theorem processCodPayment_flow (db : Db) (orderId : nat) :
  match orders db !! orderId with
  | None => processCodPayment orderId db = (Err OrderNotFound, db)
  | Some order =>
      if decide (Exists (λ p, Payment.orderId p = orderId) (payments db)) then
        processCodPayment orderId db = (Err DuplicatePayment, db)
      else
        ∃ (created stored : Payment.t) (order' : Order.t) (db' : Db),
          let id := length (payments db) in
          processCodPayment orderId db = (Ok (id, created), db') ∧
          payments db' = payments db ++ [stored] ∧
          Payment.orderId stored = orderId ∧
          Payment.provider stored = "cod" ∧
          Payment.status stored = "completed" ∧
          Payment.transactionId stored = Some (cod_transaction_id id) ∧
          Payment.amount stored = Order.totalAmount order ∧
          orders db' !! orderId = Some order' ∧
          Order.status order' = "confirmed" ∧
          Order.paymentStatus order' = "completed" ∧
          Order.paymentId order' = Some id ∧
          (∀ j, j ≠ orderId → orders db' !! j = orders db !! j) ∧
          gateway_calls db' = gateway_calls db ∧
          processCodPayment orderId db' = (Err DuplicatePayment, db')
  end.
Proof.
  destruct (orders db !! orderId) as [order|] eqn:Ho.
  - case_decide as Hex.
    + apply find_by_order_Some in Hex as [[i p] Hf].
      unfold processCodPayment. unfold_m. unfold_repo. cbn. rewrite Ho. cbn.
      by rewrite Hf.
    + apply find_by_order_None in Hex.
      unfold processCodPayment. unfold_m. unfold_repo. cbn.
      rewrite Ho. cbn. rewrite Hex. rewrite createPayment_eq. cbn.
      eexists _, _, _, _. split; [reflexivity|]. cbn.
      split_and!; try reflexivity.
      * rewrite !list_lookup_alter_eq, Ho. cbn. reflexivity.
      * cbn. reflexivity.
      * cbn. reflexivity.
      * cbn. reflexivity.
      * intros j Hj. by rewrite !list_lookup_alter_ne.
      * unfold gateway_calls, log. cbn.
        rewrite (bool_decide_eq_true_2 _ eq_refl).
        rewrite !count_calls_app. unfold count_calls, truthy. cbn. lia.
      * rewrite !list_lookup_alter_eq, Ho. cbn.
        erewrite list_find_snoc; [done|done|done].
  - unfold processCodPayment. unfold_m. unfold_repo. cbn. by rewrite Ho.
Qed.

Lemma processCodPayment_flow_witness :
  ∃ created db',
    processCodPayment 0 fresh_order_db = (Ok (0, created), db') ∧
    status_at db' 0 = Some "completed" ∧
    (Order.status <$> orders db' !! 0) = Some "confirmed" ∧
    processCodPayment 0 db' = (Err DuplicatePayment, db').
Proof.
  pose proof (processCodPayment_flow fresh_order_db 0) as H. cbn in H.
  destruct H as (created & stored & order' & db' & Hrun & Hpay & _ & _ & Hst & _ & _
                 & Ho & Hos & _ & _ & _ & _ & Hdup).
  exists created, db'. split_and!; [exact Hrun| | |exact Hdup].
  - unfold status_at. rewrite Hpay. cbn. by rewrite Hst.
  - rewrite Ho. cbn. by rewrite Hos.
Defined.

(** ** Refunds *)

(** C7.  [initiateRefund] throws NotFound for an absent payment,
    InvalidState for a payment that is not completed and InvalidAmount for
    an amount above the payment's, each time leaving the store untouched;
    otherwise the payment records the refund, its order becomes refunded /
    refunded, and a second refund of the same payment is rejected. *)
Theorem initiateRefund_flow (db : Db) (params : RefundParams) :
  let id := r_paymentId params in
  match payments db !! id with
  | None => initiateRefund params db = (Err PaymentNotFound, db)
  | Some p =>
      if decide (Payment.status p ≠ "completed") then
        initiateRefund params db = (Err RefundInvalidState, db)
      else if decide (Payment.amount p < r_refundAmount params)%Z then
        initiateRefund params db = (Err InvalidAmount, db)
      else
        ∃ (p' : Payment.t) (db' : Db),
          initiateRefund params db = (Ok (Some (id, p')), db') ∧
          payments db' = <[id := p']> (payments db) ∧
          Payment.status p' = "refunded" ∧
          Payment.refundAmount p' = Some (r_refundAmount params) ∧
          Payment.amount p' = Payment.amount p ∧
          Payment.orderId p' = Payment.orderId p ∧
          orders db' !! Payment.orderId p =
            Order.set_status "refunded" "refunded" <$> orders db !! Payment.orderId p ∧
          (∀ j, j ≠ Payment.orderId p → orders db' !! j = orders db !! j) ∧
          gateway_calls db' = gateway_calls db ∧
          initiateRefund params db' = (Err RefundInvalidState, db')
  end.
Proof.
  intros id. subst id.
  unfold initiateRefund. unfold_m. unfold_repo. unfold PaymentRepo.read. cbn.
  destruct (payments db !! r_paymentId params) as [p|] eqn:Hp; cbn; [|done].
  case_decide as Hs.
  - by rewrite bool_decide_eq_false_2.
  - rewrite bool_decide_eq_true_2 by done. cbn.
    case_decide as Ha.
    + by apply Z.ltb_lt in Ha as ->.
    + apply Z.nlt_ge, Z.ltb_ge in Ha as ->. cbn.
      rewrite list_lookup_alter_eq, Hp. cbn.
      eexists _, _. split; [reflexivity|]. cbn.
      split_and!; try reflexivity.
      * by apply alter_as_insert.
      * apply list_lookup_alter_eq.
      * intros j Hj. by apply list_lookup_alter_ne.
      * unfold gateway_calls, log. cbn.
        rewrite !count_calls_app. unfold count_calls. cbn. lia.
      * rewrite list_lookup_alter_eq, Hp. cbn. by rewrite refunded_not_completed.
Qed.

Lemma initiateRefund_flow_witness :
  initiateRefund (mkRefund 0 2000 None) confirmed_cod_db
    = (Err InvalidAmount, confirmed_cod_db) ∧
  initiateRefund (mkRefund 0 1500 None) pending_gateway_db
    = (Err RefundInvalidState, pending_gateway_db) ∧
  initiateRefund (mkRefund 7 1500 None) confirmed_cod_db
    = (Err PaymentNotFound, confirmed_cod_db).
Proof.
  split_and!.
  - exact (initiateRefund_flow confirmed_cod_db (mkRefund 0 2000 None)).
  - exact (initiateRefund_flow pending_gateway_db (mkRefund 0 1500 None)).
  - exact (initiateRefund_flow confirmed_cod_db (mkRefund 7 1500 None)).
Defined.

(** ** Signature verification *)

(** C8.  [verifyRazorpayPayment] throws InvalidSignature, touching
    nothing, when the adapter rejects the signature; with a valid
    signature and no payment holding the gateway order id it throws
    NotFound, again touching nothing; in the remaining case it returns. *)
Theorem verifyRazorpayPayment_errors (gw : Gateway) (params : VerifyParams) (db : Db) :
  if verifyPaymentSignature gw (v_razorpayOrderId params)
       (v_razorpayPaymentId params) (v_razorpaySignature params)
  then
    if decide (Exists (λ p, Payment.razorpayOrderId p = Some (v_razorpayOrderId params))
                 (payments db))
    then ∃ r db', verifyRazorpayPayment gw params db = (Ok r, db')
    else verifyRazorpayPayment gw params db = (Err PaymentNotFound, db)
  else verifyRazorpayPayment gw params db = (Err InvalidSignature, db).
Proof.
  unfold verifyRazorpayPayment. unfold_m. unfold_repo.
  destruct (verifyPaymentSignature gw _ _ _); cbn; [|done].
  case_decide as Hex.
  - apply Exists_exists in Hex as (p & Hp & Hg).
    destruct (list_find_elem_of
                (λ p, Payment.razorpayOrderId p = Some (v_razorpayOrderId params))
                (payments db) p Hp Hg) as [[i q] Hf].
    rewrite Hf. cbn.
    destruct (bool_decide (Payment.status q = "completed")) eqn:Hs; cbn; [by eauto|].
    apply list_find_Some in Hf as (Hq & _ & _). rewrite Hq, Hs. cbn. by eauto.
  - assert (list_find (λ p, Payment.razorpayOrderId p = Some (v_razorpayOrderId params))
              (payments db) = None) as ->; [|done].
    apply list_find_None, Forall_forall. intros p Hp Hg.
    apply Hex, Exists_exists. eauto.
Qed.

Lemma verifyRazorpayPayment_errors_witness :
  let callback := mkVerify "0" "gw_1" "pay_9" "forged" in
  verifyRazorpayPayment rejecting_gateway callback pending_gateway_db
    = (Err InvalidSignature, pending_gateway_db) ∧
  verifyRazorpayPayment (working_gateway "gw_1") callback fresh_order_db
    = (Err PaymentNotFound, fresh_order_db).
Proof.
  split.
  - exact (verifyRazorpayPayment_errors rejecting_gateway
             (mkVerify "0" "gw_1" "pay_9" "forged") pending_gateway_db).
  - exact (verifyRazorpayPayment_errors (working_gateway "gw_1")
             (mkVerify "0" "gw_1" "pay_9" "forged") fresh_order_db).
Defined.

(** ** Retry *)

(** C10.  For a payment of the order that is not completed and stores no
    checkout URL, [retryPayment] throws NoCheckoutAvailable after having
    written status pending: the stored payment is the old one with status
    pending, every other payment and every order is as before, and the
    payment collection differs from the one before the call whenever the
    prior status was not pending. *)
Theorem retryPayment_reset_before_throw (db : Db) (orderId pid : nat) (p : Payment.t) :
  PaymentRepo.getPaymentByOrderId orderId db = (Ok (Some (pid, p)), db) →
  Payment.status p ≠ "completed" →
  truthy (Payment.checkoutUrl p) = false →
  ∃ db',
    retryPayment orderId db = (Err NoCheckoutAvailable, db') ∧
    payments db' !! pid = Some (Payment.set_status "pending" p) ∧
    (∀ j, j ≠ pid → payments db' !! j = payments db !! j) ∧
    orders db' = orders db ∧
    (Payment.status p ≠ "pending" → payments db' ≠ payments db).
Proof.
  intros Hf Hs Hu. unfold retryPayment. unfold_m. unfold_repo.
  injection Hf as Hf. rewrite Hf. cbn.
  apply list_find_Some in Hf as (Hp & _ & _).
  rewrite bool_decide_eq_false_2 by done. cbn. rewrite Hu.
  eexists. split; [reflexivity|]. cbn. split_and!.
  - by rewrite list_lookup_alter_eq, Hp.
  - intros j Hj. by apply list_lookup_alter_ne.
  - done.
  - intros Hn Heq. apply (f_equal (λ l, Payment.status <$> l !! pid)) in Heq.
    rewrite list_lookup_alter_eq, Hp in Heq. cbn in Heq. congruence.
Qed.

Lemma retryPayment_reset_before_throw_witness :
  ∃ db',
    retryPayment 0 failed_gateway_db = (Err NoCheckoutAvailable, db') ∧
    status_at db' 0 = Some "pending" ∧
    payments db' ≠ payments failed_gateway_db.
Proof.
  destruct (retryPayment_reset_before_throw failed_gateway_db 0 0
              (gateway_payment_O1 "failed"))
    as (db' & Hr & Hp & _ & _ & Hne).
  - reflexivity.
  - discriminate.
  - reflexivity.
  - exists db'. split; [exact Hr|]. split.
    + unfold status_at. by rewrite Hp.
    + apply Hne. discriminate.
Defined.

(** ** Webhook lookup *)

(** The cascade of the source uses the strategy of the specification, and
    only that one. *)
Lemma resolvePayment_strategy (c o t : option string) (db : Db) :
  resolvePayment c o t db = (Ok (lookup_with (chosen_strategy c o t) db), db).
Proof.
  unfold resolvePayment, chosen_strategy. unfold_m. unfold_repo.
  destruct (truthy c) eqn:Hc.
  { by rewrite (truthy_carried _ Hc). }
  rewrite (falsy_carried _ Hc).
  destruct (truthy o) eqn:Ho.
  { rewrite (truthy_carried _ Ho). cbn.
    by destruct (list_find _ (orders db)) as [[oid ?]|]. }
  rewrite (falsy_carried _ Ho).
  destruct (truthy t) eqn:Ht.
  { by rewrite (truthy_carried _ Ht). }
  by rewrite (falsy_carried _ Ht).
Qed.

Lemma lookup_with_Some (s : Strategy) (db : Db) (pid : nat) (p : Payment.t) :
  lookup_with s db = Some (pid, p) → payments db !! pid = Some p.
Proof.
  unfold lookup_with. intros Hl.
  destruct s; try done;
    [| destruct (list_find _ (orders db)) as [[oid ?]|]; [|done] |];
    by apply list_find_Some in Hl as (? & _ & _).
Qed.

Lemma chosen_transaction (c o : option string) (txn t : string) :
  chosen_strategy c o (Some txn) = ByTransactionId t → t = txn.
Proof.
  unfold chosen_strategy.
  destruct (carried c); [done|]. destruct (carried o); [done|].
  cbn. case_decide; [done|]. by intros [= ->].
Qed.

(** The payment a strategy finds is found again after that payment and any
    order have been rewritten in ways that keep the keys. *)
Lemma lookup_with_stable (s : Strategy) (db : Db) (pid : nat) (p : Payment.t)
    (f : Payment.t → Payment.t) (g : Order.t → Order.t) (k : nat) (j : list Effect) :
  lookup_with s db = Some (pid, p) →
  Payment.checkoutId (f p) = Payment.checkoutId p →
  Payment.orderId (f p) = Payment.orderId p →
  (∀ t, s = ByTransactionId t → Payment.transactionId (f p) = Some t) →
  (∀ o, Order.orderNumber (g o) = Order.orderNumber o) →
  lookup_with s (mkDb (alter f pid (payments db)) (alter g k (orders db)) j)
  = Some (pid, f p).
Proof.
  intros Hl Hc Ho Ht Hg.
  pose proof (lookup_with_Some _ _ _ _ Hl) as Hp.
  unfold lookup_with in *. cbn.
  assert (∀ (P : Payment.t → Prop) `{∀ x, Decision (P x)},
            list_find P (payments db) = Some (pid, p) → P (f p) →
            list_find P (alter f pid (payments db)) = Some (pid, f p)) as Hsame.
  { intros P ? Hf HP.
    rewrite (list_find_alter_stable P f pid _ pid p Hf).
    - by rewrite decide_True.
    - intros y Hy. assert (y = p) as -> by congruence.
      apply list_find_Some in Hf as (_ & ? & _). tauto. }
  destruct s as [c|n|t|]; [| | |done].
  - apply Hsame; [done|]. apply list_find_Some in Hl as (_ & Hq & _). congruence.
  - destruct (list_find _ (orders db)) as [[oid o]|] eqn:Hfo; [|done].
    rewrite (list_find_alter_stable _ g k _ oid o Hfo).
    + apply Hsame; [done|]. apply list_find_Some in Hl as (_ & Hq & _). congruence.
    + intros y _. by rewrite Hg.
  - apply Hsame; [done|]. by apply Ht.
Qed.

(** C9.  Both webhook handlers resolve the payment with the single
    strategy chosen by the fields the event carries (checkout id, else
    order number through the order, else transaction id).  When that
    strategy finds nothing the handler throws NotFound and leaves the store
    untouched, whatever the other fields would have found; when it finds a
    payment, that payment is the one completed, respectively failed. *)
Theorem webhook_lookup_priority (db : Db) (s : SuccessEvent) (f : FailureEvent) :
  match lookup_with (success_strategy s) db with
  | None => handlePaymentSuccess s db = (Err PaymentNotFound, db)
  | Some (pid, _) =>
      ∃ p' db', handlePaymentSuccess s db = (Ok (Some (pid, p')), db') ∧
                payments db' !! pid = Some p' ∧
                Payment.status p' = "completed"
  end ∧
  match lookup_with (failure_strategy f) db with
  | None => handlePaymentFailure f db = (Err PaymentNotFound, db)
  | Some (pid, _) =>
      ∃ p' db', handlePaymentFailure f db = (Ok (Some (pid, p')), db') ∧
                payments db' !! pid = Some p' ∧
                Payment.status p' = "failed"
  end.
Proof.
  split.
  - unfold handlePaymentSuccess, success_strategy. unfold_m.
    rewrite resolvePayment_strategy.
    destruct (lookup_with _ db) as [[pid p]|] eqn:Hl; [|done].
    apply lookup_with_Some in Hl as Hp.
    case_status p Hs.
    + by eexists _, _.
    + unfold_repo. unfold PaymentRepo.read. cbn.
      rewrite Hp, (bool_decide_eq_false_2 _ Hs). cbn.
      rewrite list_lookup_alter_eq, Hp. cbn.
      eexists _, _. split; [reflexivity|]. cbn.
      by rewrite list_lookup_alter_eq, Hp.
  - unfold handlePaymentFailure, failure_strategy. unfold_m.
    rewrite resolvePayment_strategy.
    destruct (lookup_with _ db) as [[pid p]|] eqn:Hl; [|done].
    apply lookup_with_Some in Hl as Hp.
    unfold_repo. unfold PaymentRepo.read. cbn.
    rewrite list_lookup_alter_eq, Hp. cbn.
    eexists _, _. split; [reflexivity|]. cbn.
    by rewrite list_lookup_alter_eq, Hp.
Qed.

(** An event whose checkout id matches nothing is not resolved through its
    order number, although the order number alone finds the payment. *)
Lemma webhook_lookup_priority_witness :
  handlePaymentSuccess webhook_unknown_checkout pending_gateway_db
    = (Err PaymentNotFound, pending_gateway_db) ∧
  ∃ p' db', handlePaymentFailure failure_for_O1 pending_gateway_db
              = (Ok (Some (0, p')), db') ∧
            Payment.status p' = "failed".
Proof.
  destruct (webhook_lookup_priority pending_gateway_db webhook_unknown_checkout
              failure_for_O1) as [Hs Hf].
  split; [exact Hs|].
  cbn in Hf. destruct Hf as (p' & db' & Hrun & _ & Hst). by exists p', db'.
Defined.

Example order_number_alone_resolves :
  ∃ r db', handlePaymentSuccess webhook_pay_9 pending_gateway_db = (Ok r, db').
Proof. eexists _, _. reflexivity. Qed.

(** ** Gateway checkout *)

Lemma initiate_existing_eq (key : string) (gw : Gateway) (db : Db) (orderId : nat)
    (order : Order.t) (pid : nat) (g : string) :
  orders db !! orderId = Some order →
  existing_gateway_order db orderId = Some (pid, g) →
  initiateRazorpayPayment key gw orderId db =
  (Ok (mkCheckout pid g key (Order.totalAmount order * 100) "INR"
         (Order.orderNumber order)), db).
Proof.
  intros Ho He. unfold initiateRazorpayPayment, existing_gateway_order in *.
  unfold_m. unfold_repo. cbn. rewrite Ho. cbn.
  destruct (list_find _ (payments db)) as [[i p]|]; [|done].
  destruct (truthy (Payment.razorpayOrderId p)); [|done]. by injection He as -> ->.
Qed.

Lemma initiate_fresh_eq (key : string) (gw : Gateway) (db : Db) (orderId : nat)
    (order : Order.t) :
  orders db !! orderId = Some order →
  existing_gateway_order db orderId = None →
  let id := length (payments db) in
  let minor := (Order.totalAmount order * 100)%Z in
  let call := GatewayCreateOrder orderId minor "INR" (Order.orderNumber order) in
  initiateRazorpayPayment key gw orderId db =
  match createOrder gw orderId minor "INR" (Order.orderNumber order) with
  | Err _ => (Err GatewayIntegrationFailure, log call db)
  | Ok g =>
      (Ok (mkCheckout id g key minor "INR" (Order.orderNumber order)),
       mkDb (payments db ++ [stored_payment id (gateway_params orderId order g)])
            (alter (Order.set_status "payment_pending" "pending") orderId
               (alter (Order.set_paymentId id) orderId (orders db)))
            (journal db ++ [call]
               ++ createPayment_journal id (gateway_params orderId order g)
               ++ [OrderStatusWritten orderId "payment_pending" "pending"]))
  end.
Proof.
  intros Ho He. cbn zeta.
  unfold initiateRazorpayPayment, existing_gateway_order in *.
  unfold_m. unfold_repo. cbn. rewrite Ho. cbn.
  destruct (list_find _ (payments db)) as [[i p]|] eqn:Hf.
  - destruct (truthy (Payment.razorpayOrderId p)) eqn:Ht; [done|].
    destruct (createOrder gw _ _ _ _) as [g|e]; [|done].
    rewrite createPayment_eq. cbn. unfold log. cbn.
    do 2 f_equal. unfold gateway_params.
    repeat (rewrite <- app_assoc; cbn). reflexivity.
  - destruct (createOrder gw _ _ _ _) as [g|e]; [|done].
    rewrite createPayment_eq. cbn. unfold log. cbn.
    do 2 f_equal. unfold gateway_params.
    repeat (rewrite <- app_assoc; cbn). reflexivity.
Qed.

(** C5.  When the adapter's create-order call fails, the caller gets
    GatewayIntegrationFailure whatever the adapter threw, no payment is
    created and no order is changed; the journal only gains the call. *)
Theorem gateway_failure_is_atomic (key : string) (gw : Gateway) (db : Db)
    (orderId : nat) (order : Order.t) (raw : Exn) :
  orders db !! orderId = Some order →
  existing_gateway_order db orderId = None →
  createOrder gw orderId (Order.totalAmount order * 100) "INR"
    (Order.orderNumber order) = Err raw →
  ∃ db',
    initiateRazorpayPayment key gw orderId db = (Err GatewayIntegrationFailure, db') ∧
    payments db' = payments db ∧
    orders db' = orders db ∧
    journal db' = journal db ++
      [GatewayCreateOrder orderId (Order.totalAmount order * 100) "INR"
         (Order.orderNumber order)].
Proof.
  intros Ho He Hc. rewrite (initiate_fresh_eq key gw db orderId order Ho He).
  cbn zeta. rewrite Hc. by eexists.
Qed.

Lemma gateway_failure_is_atomic_witness :
  ∃ db',
    initiateRazorpayPayment "rzp_key" failing_gateway 0 fresh_order_db
      = (Err GatewayIntegrationFailure, db') ∧
    payments db' = [] ∧
    orders db' = orders fresh_order_db.
Proof.
  destruct (gateway_failure_is_atomic "rzp_key" failing_gateway fresh_order_db 0
              (order_O1 "created" "pending" None) (TransportError "ECONNRESET"))
    as (db' & Hr & Hp & Ho & _).
  - reflexivity.
  - reflexivity.
  - reflexivity.
  - exists db'. split; [exact Hr|]. split; [exact Hp|exact Ho].
Defined.

(** The reuse branch, and the stores on which it is reached.  For an
    existing order: (a) when the payment found for it holds a gateway order
    id, the call returns that id with the checkout parameters and leaves
    the whole store, journal included, as it was, whatever the adapter
    would answer; (b) two calls in a row, for an order whose payment, if it
    has one, holds a gateway order id, and with the adapter handing out a
    non-empty id: the second call returns the very checkout of the first,
    changes nothing, and over both calls the adapter's create operation is
    invoked at most once. *)
Lemma no_double_remote_order (key : string) (gw1 gw2 : Gateway) (db : Db)
    (orderId : nat) (order : Order.t) :
  orders db !! orderId = Some order →
  (∀ pid g,
     existing_gateway_order db orderId = Some (pid, g) →
     initiateRazorpayPayment key gw1 orderId db =
       (Ok (mkCheckout pid g key (Order.totalAmount order * 100) "INR"
              (Order.orderNumber order)), db)) ∧
  (∀ checkout db1,
     (∀ pid p, list_find (λ p, Payment.orderId p = orderId) (payments db) = Some (pid, p) →
               truthy (Payment.razorpayOrderId p) = true) →
     initiateRazorpayPayment key gw1 orderId db = (Ok checkout, db1) →
     razorpayOrderId checkout ≠ "" →
     initiateRazorpayPayment key gw2 orderId db1 = (Ok checkout, db1) ∧
     (gateway_calls db1 ≤ gateway_calls db + 1)%nat).
Proof.
  intros Ho. split.
  { intros pid g He. by apply initiate_existing_eq. }
  intros checkout db1 Hpay H1 Hne.
  destruct (existing_gateway_order db orderId) as [[pid g]|] eqn:He.
  - rewrite (initiate_existing_eq key gw1 db orderId order pid g Ho He) in H1.
    injection H1 as <- <-.
    split; [by apply initiate_existing_eq | lia].
  - assert (list_find (λ p, Payment.orderId p = orderId) (payments db) = None) as Hnone.
    { unfold existing_gateway_order in He.
      destruct (list_find _ (payments db)) as [[i p]|] eqn:Hf; [|done].
      by rewrite (Hpay i p eq_refl) in He. }
    rewrite (initiate_fresh_eq key gw1 db orderId order Ho He) in H1. cbn zeta in H1.
    destruct (createOrder gw1 _ _ _ _) as [g|e]; [|done].
    injection H1 as <- <-. cbn in Hne. split.
    + apply initiate_existing_eq with (order :=
        Order.set_status "payment_pending" "pending"
          (Order.set_paymentId (length (payments db)) order)).
      * cbn. by rewrite !list_lookup_alter_eq, Ho.
      * unfold existing_gateway_order. cbn.
        rewrite (stored_gateway_payment _ _ _ _ Hne).
        erewrite list_find_snoc; [|done|done].
        cbn. by rewrite (truthy_nonempty g Hne).
    + unfold gateway_calls. cbn. rewrite !count_calls_app.
      unfold createPayment_journal. cbn. rewrite (truthy_nonempty g Hne).
      unfold count_calls. cbn. lia.
Qed.

Lemma no_double_remote_order_witness :
  ∃ checkout db1,
    initiateRazorpayPayment "rzp_key" (working_gateway "gw_1") 0 fresh_order_db
      = (Ok checkout, db1) ∧
    razorpayOrderId checkout = "gw_1" ∧
    initiateRazorpayPayment "rzp_key" (working_gateway "gw_2") 0 db1 = (Ok checkout, db1) ∧
    (gateway_calls db1 ≤ gateway_calls fresh_order_db + 1)%nat.
Proof.
  destruct (no_double_remote_order "rzp_key" (working_gateway "gw_1")
              (working_gateway "gw_2") fresh_order_db 0
              (order_O1 "created" "pending" None) eq_refl)
    as [_ Htwice].
  eexists _, _. split; [vm_compute; reflexivity|]. split; [reflexivity|].
  apply Htwice.
  - intros pid p Hf. discriminate Hf.
  - vm_compute. reflexivity.
  - discriminate.
Defined.


(** ** Idempotent completion *)

(** C3.  When [handlePaymentSuccess] has returned for an event, a second
    call with the same event returns the same payment and leaves the
    store, journal included, exactly as the first call left it.  The
    payment returned is stored with status completed, no payment record
    was added, and the two calls together wrote one order confirmation if
    the payment was not completed beforehand and none if it was. *)
Theorem handlePaymentSuccess_idempotent (db db1 : Db) (event : SuccessEvent)
    (r : option PaymentDoc) :
  handlePaymentSuccess event db = (Ok r, db1) →
  handlePaymentSuccess event db1 = (Ok r, db1) ∧
  ∃ pid p0 p,
    lookup_with (success_strategy event) db = Some (pid, p0) ∧
    r = Some (pid, p) ∧
    payments db1 !! pid = Some p ∧
    Payment.status p = "completed" ∧
    length (payments db1) = length (payments db) ∧
    (if bool_decide (Payment.status p0 = "completed")
     then db1 = db
     else journal db1 = journal db ++
            [PaymentWritten pid;
             OrderStatusWritten (Payment.orderId p0) "confirmed" "completed"]
          ∧ confirmations db1 = S (confirmations db)).
Proof.
  unfold handlePaymentSuccess. unfold_m.
  rewrite !resolvePayment_strategy. fold (success_strategy event).
  destruct (lookup_with (success_strategy event) db) as [[pid p0]|] eqn:Hl; [|done].
  pose proof (lookup_with_Some _ _ _ _ Hl) as Hp0.
  destruct (decide (Payment.status p0 = "completed")) as [Hc|Hc].
  - rewrite (bool_decide_eq_true_2 _ Hc).
    intros [= <- <-]. rewrite Hl, (bool_decide_eq_true_2 _ Hc). split; [done|].
    exists pid, p0, p0. rewrite (bool_decide_eq_true_2 _ Hc). by split_and!.
  - pose proof (bool_decide_eq_false_2 _ Hc) as Hs. rewrite Hs.
    unfold_repo. unfold PaymentRepo.read, PaymentRepo.write, log. cbn.
    rewrite Hp0, Hs. cbn. rewrite list_lookup_alter_eq, Hp0. cbn.
    intros [= <- <-].
    rewrite (lookup_with_stable _ db pid p0); cbn; try done.
    + rewrite (bool_decide_eq_true_2 _ (eq_refl "completed")).
      split; [done|]. exists pid, p0. eexists. rewrite Hs.
      split_and!; [done|reflexivity| | | | |].
      * by rewrite list_lookup_alter_eq, Hp0.
      * reflexivity.
      * by rewrite length_alter.
      * by rewrite <- app_assoc.
      * unfold confirmations.
        rewrite <- app_assoc, List.filter_app, length_app. cbn. lia.
    + intros t Ht. apply chosen_transaction in Ht. by subst t.
Qed.

Lemma handlePaymentSuccess_idempotent_witness :
  let first := handlePaymentSuccess webhook_pay_9 pending_gateway_db in
  handlePaymentSuccess webhook_pay_9 first.2 = first ∧
  (Order.status <$> orders first.2 !! 0) = Some "confirmed" ∧
  confirmations first.2 = 1.
Proof.
  cbn zeta.
  destruct (handlePaymentSuccess webhook_pay_9 pending_gateway_db) as [r db1] eqn:Hfirst.
  vm_compute in Hfirst. injection Hfirst as <- <-.
  split.
  - refine (proj1 (handlePaymentSuccess_idempotent pending_gateway_db _ webhook_pay_9 _ _)).
    vm_compute. reflexivity.
  - split; reflexivity.
Defined.

(** The scenario of section 8: checkout for order O1, the success webhook,
    then the same webhook again. *)
Example scenario_O1 :
  let gw := working_gateway "gw_1" in
  let '(checkout, db1) := initiateRazorpayPayment "rzp_key" gw 0 fresh_order_db in
  let '(first, db2) := handlePaymentSuccess webhook_pay_9 db1 in
  let '(second, db3) := handlePaymentSuccess webhook_pay_9 db2 in
  (razorpayOrderId <$> match checkout with Ok c => Some c | Err _ => None end) = Some "gw_1" ∧
  status_at db2 0 = Some "completed" ∧
  (Order.status <$> orders db2 !! 0) = Some "confirmed" ∧
  (Order.paymentStatus <$> orders db2 !! 0) = Some "completed" ∧
  second = first ∧ db3 = db2.
Proof. vm_compute. by split_and!. Qed.

(** ** The effect of each operation on the ledgers *)

Lemma triple_completed : consistent_triple "completed" "confirmed" "completed".
Proof. solve_triple. Qed.

Lemma triple_failed : consistent_triple "failed" "payment_failed" "failed".
Proof. solve_triple. Qed.

Lemma triple_refunded : consistent_triple "refunded" "refunded" "refunded".
Proof. solve_triple. Qed.

Lemma triple_pending : consistent_triple "pending" "payment_pending" "pending".
Proof. solve_triple. Qed.

#[local] Hint Resolve triple_completed triple_failed triple_refunded triple_pending : ledger.
#[local] Hint Constructors transition : ledger.

Lemma processCodPayment_effect (db : Db) (orderId : nat) :
  ledger_effect (ProcessCodPayment orderId) db (processCodPayment orderId db).2.
Proof.
  unfold processCodPayment. unfold_m. unfold_repo. cbn.
  destruct (orders db !! orderId) as [order|]; cbn; [|by constructor].
  destruct (list_find _ (payments db)) as [[i p]|]; [by constructor|].
  rewrite createPayment_eq. cbn.
  eapply effect_create; cbn; [reflexivity|reflexivity|auto with ledger].
Qed.

Lemma initiateRazorpayPayment_effect (key : string) (gw : Gateway) (db : Db)
    (orderId : nat) :
  ledger_effect (InitiateGatewayPayment gw orderId) db
    (initiateRazorpayPayment key gw orderId db).2.
Proof.
  destruct (orders db !! orderId) as [order|] eqn:Ho.
  - destruct (existing_gateway_order db orderId) as [[pid g]|] eqn:He.
    + rewrite (initiate_existing_eq key gw db orderId order pid g Ho He). by constructor.
    + rewrite (initiate_fresh_eq key gw db orderId order Ho He). cbn zeta.
      destruct (createOrder gw _ _ _ _) as [g|e]; cbn; [|by constructor].
      destruct (stored_gateway_status (length (payments db)) orderId order g) as [Hs Hi].
      eapply effect_create; cbn; [reflexivity| |].
      * by rewrite Hi.
      * rewrite Hs. auto with ledger.
  - unfold initiateRazorpayPayment. unfold_m. unfold_repo. cbn. rewrite Ho.
    by constructor.
Qed.

Lemma verifyRazorpayPayment_effect (gw : Gateway) (params : VerifyParams) (db : Db) :
  ledger_effect (VerifyGatewayPayment gw params) db (verifyRazorpayPayment gw params db).2.
Proof.
  unfold verifyRazorpayPayment. unfold_m. unfold_repo.
  destruct (verifyPaymentSignature gw _ _ _); cbn; [|by constructor].
  destruct (list_find _ (payments db)) as [[pid p]|] eqn:Hf; [|by constructor].
  apply list_find_Some in Hf as (Hp & _ & _).
  case_status p Hc; [by constructor|]. cbn.
  rewrite Hp, (bool_decide_eq_false_2 _ Hc). cbn.
  eapply (effect_write _ _ _ pid p); cbn;
    [done|reflexivity|reflexivity|done|auto with ledger|auto with ledger].
Qed.

Lemma handlePaymentSuccess_effect (event : SuccessEvent) (db : Db) :
  ledger_effect (HandlePaymentSuccess event) db (handlePaymentSuccess event db).2.
Proof.
  unfold handlePaymentSuccess. unfold_m. rewrite resolvePayment_strategy.
  destruct (lookup_with _ db) as [[pid p]|] eqn:Hl; [|by constructor].
  apply lookup_with_Some in Hl.
  case_status p Hc; [by constructor|]. unfold_repo. cbn.
  rewrite Hl, (bool_decide_eq_false_2 _ Hc). cbn.
  eapply (effect_write _ _ _ pid p); cbn;
    [done|reflexivity|reflexivity|done|auto with ledger|auto with ledger].
Qed.

Lemma handlePaymentFailure_effect (event : FailureEvent) (db : Db) :
  ledger_effect (HandlePaymentFailure event) db (handlePaymentFailure event db).2.
Proof.
  unfold handlePaymentFailure. unfold_m. rewrite resolvePayment_strategy.
  destruct (lookup_with _ db) as [[pid p]|] eqn:Hl; [|by constructor].
  apply lookup_with_Some in Hl. unfold_repo. cbn.
  eapply (effect_write _ _ _ pid p); cbn;
    [done|reflexivity|reflexivity|done|auto with ledger|auto with ledger].
Qed.

Lemma initiateRefund_effect (params : RefundParams) (db : Db) :
  ledger_effect (InitiateRefund params) db (initiateRefund params db).2.
Proof.
  unfold initiateRefund. unfold_m. unfold_repo. unfold PaymentRepo.read. cbn.
  destruct (payments db !! r_paymentId params) as [p|] eqn:Hp; cbn; [|by constructor].
  case_status p Hc; cbn; [|by constructor].
  destruct (Payment.amount p <? r_refundAmount params)%Z; [by constructor|]. cbn.
  eapply (effect_write _ _ _ _ p); cbn;
    [done|reflexivity|reflexivity|done| |auto with ledger].
  rewrite Hc. auto with ledger.
Qed.

Lemma retryPayment_effect (orderId : nat) (db : Db) :
  ledger_effect (RetryPayment orderId) db (retryPayment orderId db).2.
Proof.
  unfold retryPayment. unfold_m. unfold_repo.
  destruct (list_find _ (payments db)) as [[pid p]|] eqn:Hf; [|by constructor].
  apply list_find_Some in Hf as (Hp & _ & _).
  case_status p Hc; [by constructor|]. cbn.
  destruct (truthy (Payment.checkoutUrl p)); cbn;
    (eapply (effect_reset _ _ _ pid p); cbn;
       [done|reflexivity|reflexivity|auto with ledger]).
Qed.

Lemma step_effect (key : string) (op : Op) (db : Db) :
  ledger_effect op db (step key op db).
Proof.
  destruct op; cbn [step].
  - apply processCodPayment_effect.
  - apply initiateRazorpayPayment_effect.
  - apply verifyRazorpayPayment_effect.
  - apply handlePaymentSuccess_effect.
  - apply handlePaymentFailure_effect.
  - apply initiateRefund_effect.
  - apply retryPayment_effect.
Qed.

(** ** Sink states *)

(** A stored payment stays stored, and its status either stays or moves
    along [transition]. *)
Lemma step_status (key : string) (op : Op) (db : Db) (i : nat) (s : string) :
  status_at db i = Some s →
  ∃ s', status_at (step key op db) i = Some s' ∧ (s' = s ∨ transition op s s').
Proof.
  unfold status_at. intros Hs.
  destruct (payments db !! i) as [p|] eqn:Hi; [|done]. injection Hs as <-.
  destruct (step_effect key op db)
    as [Hp _ | x ? ? Hp _ _ | pid q f ? ? Hq Hp _ _ Ht _ | pid q Hq Hp _ Ht];
    rewrite Hp.
  - rewrite Hi. eauto.
  - rewrite (lookup_app_l_Some _ _ _ _ Hi). eauto.
  - destruct (decide (pid = i)) as [->|Hne].
    + rewrite list_lookup_alter_eq, Hi. cbn. assert (q = p) as -> by congruence. eauto.
    + rewrite list_lookup_alter_ne, Hi by done. eauto.
  - destruct (decide (pid = i)) as [->|Hne].
    + rewrite list_lookup_alter_eq, Hi. cbn. assert (q = p) as -> by congruence. eauto.
    + rewrite list_lookup_alter_ne, Hi by done. eauto.
Qed.

(** Every operation that tests the status before it writes keeps a
    completed payment completed, the refund apart: of the seven
    operations only [handlePaymentFailure] can take a payment out of
    completed in another way. *)
Lemma completed_kept_by_guarded_operations (key : string) (op : Op) (db : Db)
    (i : nat) :
  (∀ e, op ≠ HandlePaymentFailure e) →
  status_at db i = Some "completed" →
  status_at (step key op db) i = Some "completed" ∨
  ((∃ r, op = InitiateRefund r) ∧ status_at (step key op db) i = Some "refunded").
Proof.
  intros Hop Hs.
  destruct (step_status key op db i _ Hs) as (s' & Hs' & [->|Ht]);
    rewrite Hs'; [by left|].
  inversion Ht; subst; try done.
  - by destruct (Hop e).
  - right. eauto.
Qed.

(** With the status write of the payment ledger taken as unconditional, a
    refunded payment is reset by a retry and completed again by a success
    event: both operations test for completed only. *)
Example refunded_payment_leaves_sink :
  status_at refunded_db 0 = Some "refunded" ∧
  status_at (step "rzp_key" (RetryPayment 0) refunded_db) 0 = Some "pending" ∧
  status_at (step "rzp_key" (HandlePaymentSuccess webhook_pay_9) refunded_db) 0
    = Some "completed".
Proof. split_and!; reflexivity. Qed.

(** C2.  A failure event overwrites a completed payment.  Starting from
    one order without payment, [processCodPayment] leaves payment 0
    completed and its order confirmed.  [handlePaymentFailure] for that
    order then returns without error and has moved payment 0 from completed
    to failed and the order to payment_failed / failed: the handler writes
    without reading the status.  On the same store [handlePaymentSuccess]
    and [retryPayment], which read the status first, leave the payment
    completed, the retry being refused as already completed.  Hence
    completed is not a sink of the operations. *)
Theorem failure_event_overwrites_completed :
  let db := run "rzp_key" [ProcessCodPayment 0] fresh_order_db in
  let db' := step "rzp_key" (HandlePaymentFailure failure_for_O1) db in
  status_at db 0 = Some "completed" ∧
  (Order.status <$> orders db !! 0) = Some "confirmed" ∧
  (exec "rzp_key" (HandlePaymentFailure failure_for_O1) db).1 = None ∧
  status_at db' 0 = Some "failed" ∧
  (Order.status <$> orders db' !! 0) = Some "payment_failed" ∧
  (Order.paymentStatus <$> orders db' !! 0) = Some "failed" ∧
  status_at (step "rzp_key" (HandlePaymentSuccess webhook_pay_9) db) 0
    = Some "completed" ∧
  (exec "rzp_key" (RetryPayment 0) db).1 = Some RetryInvalidState ∧
  status_at (step "rzp_key" (RetryPayment 0) db) 0 = Some "completed" ∧
  ¬ sinks_as_specified "rzp_key".
Proof.
  cbn zeta. split_and!; try (vm_compute; reflexivity).
  intros H.
  destruct (H (HandlePaymentFailure failure_for_O1)
              (run "rzp_key" [ProcessCodPayment 0] fresh_order_db) 0) as [Hc _].
  assert (status_at (run "rzp_key" [ProcessCodPayment 0] fresh_order_db) 0
            = Some "completed") as Hs by (vm_compute; reflexivity).
  destruct (Hc Hs) as [Hf|[_ Hf]]; vm_compute in Hf; discriminate Hf.
Qed.

(** ** Cross-entity consistency *)

Lemma transition_to_pending (op : Op) (s : string) :
  transition op s "pending" → s ≠ "completed".
Proof. by inversion 1. Qed.

(** One operation keeps the stores consistent, provided it leaves no order
    with two payments. *)
Lemma effect_preserves_consistency (op : Op) (db db' : Db) :
  ledger_effect op db db' →
  consistent db →
  one_payment_per_order db' →
  consistent db'.
Proof.
  intros [Hp Ho | x s ps Hp Ho Ht | pid q f s ps Hq Hp Ho Hid _ Ht | pid q Hq Hp Ho Hnc]
    Hc Hone i p o Hi Hoi.
  - rewrite Hp in Hi. rewrite Ho in Hoi. by eapply Hc.
  - destruct (decide (Payment.orderId p = Payment.orderId x)) as [Heq|Hne].
    + assert (i = length (payments db)) as ->.
      { apply (Hone i (length (payments db)) p x); [done| |done].
        rewrite Hp. by apply list_lookup_middle. }
      rewrite Hp, list_lookup_middle in Hi by done. injection Hi as <-.
      rewrite Ho, !list_lookup_alter_eq in Hoi.
      destruct (orders db !! Payment.orderId x) as [o0|]; [|done].
      by injection Hoi as <-.
    + rewrite Ho, !list_lookup_alter_ne in Hoi by done.
      rewrite Hp in Hi. apply lookup_app_Some in Hi as [Hi|[_ Hi]].
      * by eapply Hc.
      * destruct (i - length (payments db)) as [|n]; [|done].
        by injection Hi as <-.
  - destruct (decide (Payment.orderId p = Payment.orderId q)) as [Heq|Hne].
    + assert (i = pid) as ->.
      { apply (Hone i pid p (f q)); [done| |congruence].
        by rewrite Hp, list_lookup_alter_eq, Hq. }
      rewrite Hp, list_lookup_alter_eq, Hq in Hi. injection Hi as <-.
      rewrite Hid, Ho, list_lookup_alter_eq in Hoi.
      destruct (orders db !! Payment.orderId q) as [o0|]; [|done].
      by injection Hoi as <-.
    + rewrite Ho, list_lookup_alter_ne in Hoi by done.
      destruct (decide (pid = i)) as [->|Hpi].
      * rewrite Hp, list_lookup_alter_eq, Hq in Hi. injection Hi as <-. congruence.
      * rewrite Hp, list_lookup_alter_ne in Hi by done. by eapply Hc.
  - apply transition_to_pending in Hnc.
    rewrite Ho in Hoi. destruct (decide (pid = i)) as [->|Hpi].
    + rewrite Hp, list_lookup_alter_eq, Hq in Hi. injection Hi as <-.
      destruct (Hc i q o Hq Hoi) as [Hiff _].
      split_and!; cbn; [split; [discriminate|]|discriminate..].
      intros Hconf. destruct Hnc. by apply Hiff.
    + rewrite Hp, list_lookup_alter_ne in Hi by done. by eapply Hc.
Qed.

Lemma step_preserves_consistency (key : string) (op : Op) (db : Db) :
  consistent db →
  one_payment_per_order (step key op db) →
  consistent (step key op db).
Proof. intros. by eapply effect_preserves_consistency; [apply step_effect|..]. Qed.

(** Along a run in which no order ever gets a second payment, the stores
    stay consistent. *)
Lemma run_preserves_consistency (key : string) (ops : list Op) (db : Db) :
  consistent db →
  (∀ n, one_payment_per_order (run key (take n ops) db)) →
  consistent (run key ops db).
Proof.
  revert db. induction ops as [|op ops IH]; intros db Hc Hone; [done|].
  cbn. apply IH.
  - apply step_preserves_consistency; [done|]. apply (Hone 1).
  - intros n. apply (Hone (S n)).
Qed.

(** The scenario of section 8 never gives an order a second payment, so
    it ends in a consistent store. *)
Example scenario_O1_consistent :
  consistent
    (run "rzp_key"
       [InitiateGatewayPayment (working_gateway "gw_1") 0;
        HandlePaymentSuccess webhook_pay_9;
        HandlePaymentSuccess webhook_pay_9] fresh_order_db).
Proof.
  apply run_preserves_consistency.
  - intros i p o Hp _. by destruct i.
  - intros n i j p q Hi Hj _.
    destruct n as [|[|[|[|n]]]]; vm_compute in Hi, Hj;
      destruct i as [|i], j as [|j]; try done;
      try (by destruct i); by destruct j.
Qed.

(** C1.  Starting from one order without payment, [processCodPayment]
    followed by [initiateRazorpayPayment] on the same order leaves the
    cash-on-delivery payment completed while its order is back to
    payment_pending / pending: the store was consistent before and after
    the first operation and is not after the second. *)
Theorem cod_then_gateway_breaks_consistency :
  consistent fresh_order_db ∧
  consistent (run "rzp_key" [ProcessCodPayment 0] fresh_order_db) ∧
  (let db := run "rzp_key" cod_then_gateway fresh_order_db in
   status_at db 0 = Some "completed" ∧
   (Payment.orderId <$> payments db !! 0) = Some 0 ∧
   (Order.status <$> orders db !! 0) = Some "payment_pending" ∧
   (Order.paymentStatus <$> orders db !! 0) = Some "pending" ∧
   length (payments db) = 2 ∧
   ¬ consistent db).
Proof.
  split_and!.
  - intros i p o Hp _. by destruct i.
  - intros i p o Hp Ho. destruct i as [|i]; [|by destruct i].
    vm_compute in Hp. injection Hp as <-. vm_compute in Ho. injection Ho as <-.
    apply triple_completed.
  - cbn zeta. split_and!; try reflexivity.
    intros H.
    destruct (H 0 _ _ eq_refl eq_refl) as [[Hc _] _].
    destruct (Hc eq_refl) as [Hs _]. vm_compute in Hs. discriminate Hs.
Qed.

(** * Further properties of the service *)

(** ** One operation, its error and its frame *)

Lemma exec_step (key : string) (op : Op) (db : Db) :
  (exec key op db).2 = step key op db.
Proof. by destruct op. Qed.

Lemma count_calls_createPayment (id : nat) (params : CreateParams) :
  count_calls (createPayment_journal id params) = 0.
Proof.
  unfold createPayment_journal, count_calls.
  by destruct (truthy _), (bool_decide _).
Qed.

Lemma keeps_identity_refl (p : Payment.t) : keeps_identity p p.
Proof. by repeat split. Qed.

Lemma same_order_refl (o : Order.t) : same_order o o.
Proof. by repeat split. Qed.

#[local] Hint Resolve keeps_identity_refl same_order_refl : ledger.

Lemma processCodPayment_frame (db : Db) (orderId : nat) :
  let r := outcome (processCodPayment orderId db) in
  op_effect (ProcessCodPayment orderId) db r.1 r.2.
Proof.
  cbn zeta. unfold outcome, processCodPayment. unfold_m. unfold_repo. cbn.
  destruct (orders db !! orderId) as [order|]; cbn; [|stops_clean].
  destruct (list_find _ (payments db)) as [[i p]|] eqn:Hf; [stops_clean|].
  rewrite createPayment_eq. cbn.
  eapply (op_create _ _ _ _ _
            (Order.set_status "confirmed" "completed" ∘
             Order.set_paymentId (length (payments db)))); cbn.
  - reflexivity.
  - reflexivity.
  - intros _. by apply list_find_None in Hf.
  - by rewrite list_alter_alter_eq.
  - intros o. by repeat split.
  - unfold log. journal_tail.
  - unfold count_calls, truthy. cbn. repeat case_match; cbn; lia.
Qed.

Lemma initiateRazorpayPayment_frame (key : string) (gw : Gateway) (db : Db)
    (orderId : nat) :
  let r := outcome (initiateRazorpayPayment key gw orderId db) in
  op_effect (InitiateGatewayPayment gw orderId) db r.1 r.2.
Proof.
  cbn zeta. destruct (orders db !! orderId) as [order|] eqn:Ho.
  - destruct (existing_gateway_order db orderId) as [[pid g]|] eqn:He.
    + rewrite (initiate_existing_eq key gw db orderId order pid g Ho He).
      unfold outcome. stops_clean.
    + rewrite (initiate_fresh_eq key gw db orderId order Ho He). cbn zeta.
      destruct (createOrder gw _ _ _ _) as [g|e]; unfold outcome; cbn.
      * destruct (stored_gateway_status (length (payments db)) orderId order g)
          as [Hs Hi].
        eapply (op_create _ _ _ _ _
                  (Order.set_status "payment_pending" "pending" ∘
                   Order.set_paymentId (length (payments db)))); cbn.
        -- reflexivity.
        -- reflexivity.
        -- intros [=].
        -- by rewrite Hi, list_alter_alter_eq.
        -- intros o. by repeat split.
        -- reflexivity.
        -- unfold count_calls, truthy. cbn. repeat case_match; cbn; lia.
      * eapply (op_none _ _ _ _ [_]); cbn;
          [reflexivity|reflexivity|reflexivity|by cbn].
  - unfold outcome, initiateRazorpayPayment. unfold_m. unfold_repo. cbn. rewrite Ho.
    stops_clean.
Qed.

(** A write that leaves the identity of a payment alone. *)
Ltac rewrites_in_place pid q g :=
  eapply (op_write _ _ _ _ pid q _ g); cbn;
  [ auto
  | eassumption
  | by apply alter_as_insert
  | by repeat split
  | reflexivity
  | intros o; by repeat split
  | unfold log; journal_tail
  | reflexivity ].

Lemma verifyRazorpayPayment_frame (gw : Gateway) (params : VerifyParams) (db : Db) :
  let r := outcome (verifyRazorpayPayment gw params db) in
  op_effect (VerifyGatewayPayment gw params) db r.1 r.2.
Proof.
  cbn zeta. unfold outcome, verifyRazorpayPayment. unfold_m. unfold_repo.
  destruct (verifyPaymentSignature gw _ _ _); cbn; [|stops_clean].
  destruct (list_find _ (payments db)) as [[pid p]|] eqn:Hf; [|stops_clean].
  apply list_find_Some in Hf as (Hp & _ & _).
  case_status p Hc; [stops_clean|]. cbn.
  rewrite Hp, (bool_decide_eq_false_2 _ Hc). cbn.
  rewrites_in_place pid p (Order.set_status "confirmed" "completed").
Qed.

Lemma handlePaymentSuccess_frame (event : SuccessEvent) (db : Db) :
  let r := outcome (handlePaymentSuccess event db) in
  op_effect (HandlePaymentSuccess event) db r.1 r.2.
Proof.
  cbn zeta. unfold outcome, handlePaymentSuccess. unfold_m.
  rewrite resolvePayment_strategy.
  destruct (lookup_with _ db) as [[pid p]|] eqn:Hl; [|stops_clean].
  apply lookup_with_Some in Hl.
  case_status p Hc; [stops_clean|]. unfold_repo. cbn.
  rewrite Hl, (bool_decide_eq_false_2 _ Hc). cbn.
  rewrites_in_place pid p (Order.set_status "confirmed" "completed").
Qed.

Lemma handlePaymentFailure_frame (event : FailureEvent) (db : Db) :
  let r := outcome (handlePaymentFailure event db) in
  op_effect (HandlePaymentFailure event) db r.1 r.2.
Proof.
  cbn zeta. unfold outcome, handlePaymentFailure. unfold_m.
  rewrite resolvePayment_strategy.
  destruct (lookup_with _ db) as [[pid p]|] eqn:Hl; [|stops_clean].
  apply lookup_with_Some in Hl. unfold_repo. cbn.
  rewrites_in_place pid p (Order.set_status "payment_failed" "failed").
Qed.

Lemma initiateRefund_frame (params : RefundParams) (db : Db) :
  let r := outcome (initiateRefund params db) in
  op_effect (InitiateRefund params) db r.1 r.2.
Proof.
  cbn zeta. unfold outcome, initiateRefund. unfold_m. unfold_repo.
  unfold PaymentRepo.read. cbn.
  destruct (payments db !! r_paymentId params) as [p|] eqn:Hp; cbn; [|stops_clean].
  case_status p Hc; cbn; [|stops_clean].
  destruct (Payment.amount p <? r_refundAmount params)%Z; [stops_clean|]. cbn.
  rewrites_in_place (r_paymentId params) p (Order.set_status "refunded" "refunded").
Qed.

Lemma retryPayment_frame (orderId : nat) (db : Db) :
  let r := outcome (retryPayment orderId db) in
  op_effect (RetryPayment orderId) db r.1 r.2.
Proof.
  cbn zeta. unfold outcome, retryPayment. unfold_m. unfold_repo.
  destruct (list_find _ (payments db)) as [[pid p]|] eqn:Hf; [|stops_clean].
  apply list_find_Some in Hf as (Hp & _ & _).
  case_status p Hc; [stops_clean|]. cbn.
  destruct (truthy (Payment.checkoutUrl p)); cbn.
  - eapply (op_write _ _ _ _ pid p _ id); cbn;
      [ auto | eassumption | by apply alter_as_insert | by repeat split
      | by rewrite list_alter_id
      | intros o; by repeat split | unfold log; journal_tail | reflexivity ].
  - eapply (op_write _ _ _ _ pid p _ id); cbn;
      [ right; eauto | eassumption | by apply alter_as_insert | by repeat split
      | by rewrite list_alter_id
      | intros o; by repeat split | unfold log; journal_tail | reflexivity ].
Qed.

(** Every operation has one of the three effects. *)
Lemma exec_effect (key : string) (op : Op) (db : Db) :
  op_effect op db (exec key op db).1 (exec key op db).2.
Proof.
  destruct op; cbn [exec].
  - apply processCodPayment_frame.
  - apply initiateRazorpayPayment_frame.
  - apply verifyRazorpayPayment_frame.
  - apply handlePaymentSuccess_frame.
  - apply handlePaymentFailure_frame.
  - apply initiateRefund_frame.
  - apply retryPayment_frame.
Qed.

(** ** Failures *)

(** X1.  An operation that throws has written to neither ledger, with one
    exception: [retryPayment] throwing NoCheckoutAvailable. *)
Theorem failed_operation_writes_nothing (key : string) (op : Op) (db db' : Db) (e : Exn) :
  exec key op db = (Some e, db') →
  (payments db' = payments db ∧ orders db' = orders db) ∨
  (e = NoCheckoutAvailable ∧ ∃ o, op = RetryPayment o).
Proof.
  intros Hx. pose proof (exec_effect key op db) as He. rewrite Hx in He. cbn in He.
  destruct He as [k Hp Ho _ _ | x g k [=] | pid q q' g k [[=]|[[= <-] Hop]]].
  - by left.
  - by right.
Qed.

Lemma failed_operation_writes_nothing_witness :
  ∃ db', exec "rzp_key" (InitiateGatewayPayment failing_gateway 0) fresh_order_db
           = (Some GatewayIntegrationFailure, db') ∧
         payments db' = [] ∧ orders db' = orders fresh_order_db.
Proof.
  eexists. split; [vm_compute; reflexivity|].
  destruct (failed_operation_writes_nothing "rzp_key"
              (InitiateGatewayPayment failing_gateway 0) fresh_order_db _
              GatewayIntegrationFailure eq_refl) as [[Hp Ho]|[He _]].
  - split; [exact Hp|exact Ho].
  - discriminate He.
Defined.

(** ** Calls to the gateway *)

Lemma step_gateway_calls (key : string) (op : Op) (db : Db) :
  (gateway_calls db ≤ gateway_calls (step key op db) ≤ gateway_calls db + calls_allowed op)%nat.
Proof.
  rewrite <- exec_step. unfold gateway_calls.
  destruct (exec_effect key op db) as [k _ _ -> Hk | x g k _ _ _ _ _ -> Hk
                                      | pid q q' g k _ _ _ _ _ _ -> Hk];
    rewrite count_calls_app; lia.
Qed.

(** The number of gateway checkouts a list of operations asks for. *)
Lemma run_cons (key : string) (op : Op) (ops : list Op) (db : Db) :
  run key (op :: ops) db = run key ops (step key op db).
Proof. reflexivity. Qed.

(** X2.  Over any sequence of operations the adapter's create operation
    is invoked at most once per [initiateRazorpayPayment] in the sequence,
    and by nothing else. *)
Theorem gateway_called_only_by_initiate (key : string) (ops : list Op) (db : Db) :
  (gateway_calls db ≤ gateway_calls (run key ops db)
   ≤ gateway_calls db + sum_list (calls_allowed <$> ops))%nat.
Proof.
  revert db. induction ops as [|op ops IH]; intros db; [cbn; lia|].
  rewrite run_cons. cbn [fmap list_fmap sum_list].
  pose proof (step_gateway_calls key op db). pose proof (IH (step key op db)).
  cbn in *. lia.
Qed.

Lemma gateway_called_only_by_initiate_witness :
  gateway_calls (run "rzp_key" checkout_then_webhooks fresh_order_db) = 1.
Proof.
  pose proof (gateway_called_only_by_initiate "rzp_key" checkout_then_webhooks
                fresh_order_db) as [_ Hmax].
  assert (1 ≤ gateway_calls (run "rzp_key" checkout_then_webhooks fresh_order_db))%nat
    as Hmin by (vm_compute; lia).
  change (gateway_calls fresh_order_db + sum_list (calls_allowed <$> checkout_then_webhooks))
    with 1 in Hmax.
  lia.
Defined.

(** ** What no operation rewrites *)

Lemma keeps_identity_trans (p q r : Payment.t) :
  keeps_identity p q → keeps_identity q r → keeps_identity p r.
Proof.
  unfold keeps_identity. intros (?&?&?&?&?&?&?&?&?) (?&?&?&?&?&?&?&?&?).
  split_and!; congruence.
Qed.

Lemma same_order_trans (o p q : Order.t) :
  same_order o p → same_order p q → same_order o q.
Proof.
  unfold same_order. intros (?&?&?&?) (?&?&?&?). split_and!; congruence.
Qed.

Lemma step_keeps_payment (key : string) (op : Op) (db : Db) (i : nat) (p : Payment.t) :
  payments db !! i = Some p →
  ∃ p', payments (step key op db) !! i = Some p' ∧ keeps_identity p p'.
Proof.
  intros Hi. rewrite <- exec_step.
  destruct (exec_effect key op db) as [k -> _ _ _ | x g k _ -> _ _ _ _ _
                                      | pid q q' g k _ Hq -> Hid _ _ _ _].
  - eauto with ledger.
  - rewrite (lookup_app_l_Some _ _ _ _ Hi). eauto with ledger.
  - destruct (decide (pid = i)) as [->|Hne].
    + rewrite list_lookup_insert_eq by by eapply lookup_lt_Some.
      assert (q = p) as -> by congruence. eauto.
    + rewrite list_lookup_insert_ne by done. eauto with ledger.
Qed.

(** X3.  A stored payment is never deleted, and no sequence of operations
    changes its order id, order number, owner, provider, amount, gateway
    order id, checkout id or checkout URL. *)
Theorem stored_payment_keeps_identity (key : string) (ops : list Op) (db : Db)
    (i : nat) (p : Payment.t) :
  payments db !! i = Some p →
  ∃ p', payments (run key ops db) !! i = Some p' ∧ keeps_identity p p'.
Proof.
  revert db p. induction ops as [|op ops IH]; intros db p Hi.
  - eauto with ledger.
  - rewrite run_cons.
    destruct (step_keeps_payment key op db i p Hi) as (p1 & H1 & Hk1).
    destruct (IH _ _ H1) as (p' & H' & Hk'). eauto using keeps_identity_trans.
Qed.

Lemma stored_payment_keeps_identity_witness :
  ∃ p', payments (run "rzp_key"
                    [HandlePaymentFailure failure_for_O1; RetryPayment 0;
                     HandlePaymentSuccess webhook_pay_9;
                     InitiateRefund (mkRefund 0 500 None)]
                    pending_gateway_db) !! 0 = Some p' ∧
        Payment.amount p' = 1500%Z ∧
        Payment.razorpayOrderId p' = Some "gw_1".
Proof.
  destruct (stored_payment_keeps_identity "rzp_key"
              [HandlePaymentFailure failure_for_O1; RetryPayment 0;
               HandlePaymentSuccess webhook_pay_9;
               InitiateRefund (mkRefund 0 500 None)]
              pending_gateway_db 0 (gateway_payment_O1 "pending") eq_refl)
    as (p' & Hp & _ & _ & _ & _ & _ & Ha & Hg & _).
  exists p'. split; [exact Hp|]. split; [exact Ha|exact Hg].
Defined.

Lemma step_keeps_order (key : string) (op : Op) (db : Db) :
  length (orders (step key op db)) = length (orders db) ∧
  ∀ i o, orders db !! i = Some o →
         ∃ o', orders (step key op db) !! i = Some o' ∧ same_order o o'.
Proof.
  rewrite <- exec_step.
  assert (∀ (g : Order.t → Order.t) (k : nat),
            (∀ o, same_order o (g o)) →
            ∀ i o, orders db !! i = Some o →
                   ∃ o', alter g k (orders db) !! i = Some o' ∧ same_order o o') as Halter.
  { intros g k Hg i o Hi. destruct (decide (k = i)) as [->|Hne].
    - rewrite list_lookup_alter_eq, Hi. cbn. eauto.
    - rewrite list_lookup_alter_ne by done. eauto with ledger. }
  destruct (exec_effect key op db) as [k _ -> _ _ | x g k _ _ _ -> Hg _ _
                                      | pid q q' g k _ _ _ _ -> Hg _ _].
  - split; [done|]. eauto with ledger.
  - split; [apply length_alter|]. by apply Halter.
  - split; [apply length_alter|]. by apply Halter.
Qed.

(** X4.  No sequence of operations creates or deletes an order, or
    changes an order's number, owner or total amount. *)
Theorem orders_keep_identity (key : string) (ops : list Op) (db : Db) :
  length (orders (run key ops db)) = length (orders db) ∧
  ∀ i o, orders db !! i = Some o →
         ∃ o', orders (run key ops db) !! i = Some o' ∧ same_order o o'.
Proof.
  revert db. induction ops as [|op ops IH]; intros db.
  - split; [done|]. eauto with ledger.
  - rewrite run_cons.
    destruct (step_keeps_order key op db) as [Hl1 H1].
    destruct (IH (step key op db)) as [Hl2 H2].
    split; [congruence|]. intros i o Hi.
    destruct (H1 i o Hi) as (o1 & Ho1 & Hs1).
    destruct (H2 i o1 Ho1) as (o' & Ho' & Hs'). eauto using same_order_trans.
Qed.

Lemma orders_keep_identity_witness :
  ∃ o', orders (run "rzp_key" checkout_then_webhooks fresh_order_db) !! 0 = Some o' ∧
        Order.totalAmount o' = 1500%Z ∧
        length (orders (run "rzp_key" checkout_then_webhooks fresh_order_db)) = 1.
Proof.
  destruct (orders_keep_identity "rzp_key" checkout_then_webhooks fresh_order_db)
    as [Hlen Hkeep].
  destruct (Hkeep 0 (order_O1 "created" "pending" None) eq_refl)
    as (o' & Ho' & _ & _ & _ & Ht).
  exists o'. split_and!; [exact Ho'|exact Ht|exact Hlen].
Defined.

(** ** One payment per order *)

Lemma one_payment_append (db db' : Db) (x : Payment.t) :
  one_payment_per_order db →
  payments db' = payments db ++ [x] →
  Forall (λ p, Payment.orderId p ≠ Payment.orderId x) (payments db) →
  one_payment_per_order db'.
Proof.
  intros Hone Hp Hx i j p q Hi Hj Heq. rewrite Hp in Hi, Hj.
  apply lookup_app_Some in Hi as [Hi|[Hli Hi]];
    apply lookup_app_Some in Hj as [Hj|[Hlj Hj]].
  - by eapply Hone.
  - apply list_lookup_singleton_Some in Hj as [_ <-].
    by destruct (Forall_lookup_1 _ _ _ _ Hx Hi).
  - apply list_lookup_singleton_Some in Hi as [_ <-].
    by destruct (Forall_lookup_1 _ _ _ _ Hx Hj).
  - apply list_lookup_singleton_Some in Hi as [Hi _].
    apply list_lookup_singleton_Some in Hj as [Hj _]. lia.
Qed.

Lemma one_payment_insert (db db' : Db) (pid : nat) (q q' : Payment.t) :
  one_payment_per_order db →
  payments db !! pid = Some q →
  payments db' = <[pid := q']> (payments db) →
  Payment.orderId q' = Payment.orderId q →
  one_payment_per_order db'.
Proof.
  intros Hone Hq Hp Hid i j p r Hi Hj Heq. rewrite Hp in Hi, Hj.
  assert (∀ n s, <[pid := q']> (payments db) !! n = Some s →
                 ∃ s0, payments db !! n = Some s0 ∧
                       Payment.orderId s0 = Payment.orderId s) as Hback.
  { intros n s Hn. apply list_lookup_insert_Some in Hn as [(-> & <- & _)|[_ Hn]]; eauto. }
  destruct (Hback _ _ Hi) as (p0 & Hi0 & Hpi).
  destruct (Hback _ _ Hj) as (r0 & Hj0 & Hrj).
  apply (Hone i j p0 r0); [done|done|congruence].
Qed.

(** No operation gives an order a second payment, except
    [initiateRazorpayPayment] called for an order whose payment holds no
    gateway order id. *)
Lemma step_one_payment (key : string) (op : Op) (db : Db) :
  reuses_or_starts op db →
  one_payment_per_order db →
  one_payment_per_order (step key op db).
Proof.
  intros Hsafe Hone.
  destruct (decide (calls_allowed op = 0)) as [Hn|Hn].
  - rewrite <- exec_step.
    destruct (exec_effect key op db) as [k Hp _ _ _ | x g k _ Hp Hx _ _ _ _
                                        | pid q q' g k _ Hq Hp Hid _ _ _ _].
    + intros i j p q. rewrite Hp. apply Hone.
    + eapply one_payment_append; eauto.
    + eapply one_payment_insert; eauto. apply Hid.
  - destruct op as [|gw o| | | | |]; try done. cbn [step]. cbn in Hsafe.
    destruct (orders db !! o) as [order|] eqn:Ho.
    + destruct (existing_gateway_order db o) as [[pid g]|] eqn:He.
      * by rewrite (initiate_existing_eq key gw db o order pid g Ho He).
      * destruct Hsafe as [Hnone|[? [=]]].
        rewrite (initiate_fresh_eq key gw db o order Ho He). cbn zeta.
        destruct (createOrder gw _ _ _ _) as [g|e]; [|done].
        eapply one_payment_append; [done|reflexivity|]. cbn.
        destruct (stored_gateway_status (length (payments db)) o order g) as [_ ->].
        by apply list_find_None in Hnone.
    + unfold initiateRazorpayPayment. unfold_m. unfold_repo. cbn. by rewrite Ho.
Qed.

(** X6.  If no order has two payments, this stays so along every
    sequence of operations that calls [initiateRazorpayPayment] only for
    orders without payment or with a payment holding a gateway order id;
    in particular [processCodPayment] never adds a second payment. *)
Theorem one_payment_per_order_kept (key : string) (ops : list Op) (db : Db) :
  guarded_run key ops db →
  one_payment_per_order db →
  one_payment_per_order (run key ops db).
Proof.
  revert db. induction ops as [|op ops IH]; intros db Hg Hone; [done|].
  destruct Hg as [Hsafe Hg]. rewrite run_cons.
  apply IH; [done|]. by apply step_one_payment.
Qed.

Lemma fresh_order_db_one_payment : one_payment_per_order fresh_order_db.
Proof. intros i j p q Hi. destruct i; discriminate Hi. Qed.

Lemma checkout_then_webhooks_guarded :
  guarded_run "rzp_key" checkout_then_webhooks fresh_order_db.
Proof. cbn. split_and!; try exact I. by left. Qed.

Lemma one_payment_per_order_kept_witness :
  one_payment_per_order (run "rzp_key" checkout_then_webhooks fresh_order_db).
Proof.
  apply one_payment_per_order_kept.
  - apply checkout_then_webhooks_guarded.
  - apply fresh_order_db_one_payment.
Defined.

(** X7.  From a consistent store in which no order has two payments, a
    sequence of operations that calls [initiateRazorpayPayment] only for
    orders without payment or with a payment holding a gateway order id
    ends in a consistent store in which no order has two payments. *)
Theorem guarded_run_stays_consistent (key : string) (ops : list Op) (db : Db) :
  guarded_run key ops db →
  consistent db →
  one_payment_per_order db →
  consistent (run key ops db) ∧ one_payment_per_order (run key ops db).
Proof.
  revert db. induction ops as [|op ops IH]; intros db Hg Hc Hone; [done|].
  destruct Hg as [Hsafe Hg]. rewrite run_cons.
  pose proof (step_one_payment key op db Hsafe Hone) as Hone'.
  apply IH; [done| |done]. by apply step_preserves_consistency.
Qed.

Lemma guarded_run_stays_consistent_witness :
  consistent (run "rzp_key" checkout_then_webhooks fresh_order_db).
Proof.
  apply (guarded_run_stays_consistent "rzp_key" checkout_then_webhooks fresh_order_db).
  - apply checkout_then_webhooks_guarded.
  - intros i p o Hp _. destruct i; discriminate Hp.
  - apply fresh_order_db_one_payment.
Defined.

(** ** Completion through the client callback *)

(** X8.  With a valid signature and a payment that holds the gateway order
    id and is not completed, [verifyRazorpayPayment] completes that
    payment, recording the gateway payment id as transaction id, the
    gateway order id as gateway transaction id, method razorpay and the
    signature, and confirms the order the payment belongs to; the order id
    of the request plays no part, and the gateway's create operation is
    not called. *)
Theorem verifyRazorpayPayment_completes (gw : Gateway) (params : VerifyParams)
    (db : Db) (pid : nat) (p : Payment.t) :
  verifyPaymentSignature gw (v_razorpayOrderId params) (v_razorpayPaymentId params)
    (v_razorpaySignature params) = true →
  PaymentRepo.getPaymentByRazorpayOrderId (v_razorpayOrderId params) db
    = (Ok (Some (pid, p)), db) →
  Payment.status p ≠ "completed" →
  ∃ p' db',
    verifyRazorpayPayment gw params db = (Ok (Some (pid, p')), db') ∧
    payments db' = <[pid := p']> (payments db) ∧
    Payment.status p' = "completed" ∧
    Payment.transactionId p' = Some (v_razorpayPaymentId params) ∧
    Payment.gatewayTransactionId p' = Some (v_razorpayOrderId params) ∧
    Payment.method p' = Some "razorpay" ∧
    Payment.gatewayResponse p' = Some (v_razorpaySignature params) ∧
    keeps_identity p p' ∧
    orders db' = alter (Order.set_status "confirmed" "completed") (Payment.orderId p)
                   (orders db) ∧
    gateway_calls db' = gateway_calls db.
Proof.
  intros Hv Hf Hs. injection Hf as Hf.
  unfold verifyRazorpayPayment. unfold_m. unfold_repo. rewrite Hv. cbn.
  rewrite Hf. apply list_find_Some in Hf as (Hp & _ & _).
  rewrite (bool_decide_eq_false_2 _ Hs). unfold PaymentRepo.read. cbn.
  rewrite Hp, (bool_decide_eq_false_2 _ Hs). cbn.
  rewrite list_lookup_alter_eq, Hp. cbn.
  eexists _, _. split; [reflexivity|]. cbn. split_and!; try reflexivity.
  - by apply alter_as_insert.
  - by repeat split.
  - unfold gateway_calls, PaymentRepo.write, log. cbn.
    rewrite !count_calls_app. unfold count_calls. cbn. lia.
Qed.

Lemma verifyRazorpayPayment_completes_witness :
  ∃ p' db',
    verifyRazorpayPayment (working_gateway "gw_1") callback_gw_1 pending_gateway_db
      = (Ok (Some (0, p')), db') ∧
    Payment.status p' = "completed" ∧
    Payment.transactionId p' = Some "pay_9" ∧
    (Order.status <$> orders db' !! 0) = Some "confirmed".
Proof.
  destruct (verifyRazorpayPayment_completes (working_gateway "gw_1") callback_gw_1
              pending_gateway_db 0 (gateway_payment_O1 "pending"))
    as (p' & db' & Hrun & _ & Hs & Ht & _ & _ & _ & _ & Ho & _).
  - reflexivity.
  - reflexivity.
  - discriminate.
  - exists p', db'. split_and!; [exact Hrun|exact Hs|exact Ht|]. by rewrite Ho.
Defined.

(** A payment one of the two completion paths returns is stored and
    completed. *)
Lemma verifyRazorpayPayment_returns_completed (gw : Gateway) (params : VerifyParams)
    (db db1 : Db) (r : option PaymentDoc) :
  verifyRazorpayPayment gw params db = (Ok r, db1) →
  ∃ pid p, r = Some (pid, p) ∧ payments db1 !! pid = Some p ∧
           Payment.status p = "completed" ∧
           Payment.razorpayOrderId p = Some (v_razorpayOrderId params) ∧
           list_find (λ p, Payment.razorpayOrderId p = Some (v_razorpayOrderId params))
             (payments db1) = Some (pid, p).
Proof.
  unfold verifyRazorpayPayment. unfold_m. unfold_repo.
  destruct (verifyPaymentSignature gw _ _ _); cbn; [|done].
  destruct (list_find _ (payments db)) as [[pid p]|] eqn:Hf; [|done].
  pose proof Hf as (Hp & Hg & _)%list_find_Some.
  case_status p Hc.
  - intros [= <- <-]. by exists pid, p.
  - cbn. rewrite Hp, (bool_decide_eq_false_2 _ Hc). unfold PaymentRepo.read. cbn.
    rewrite list_lookup_alter_eq, Hp. cbn. intros [= <- <-]. cbn.
    eexists pid, _. split_and!; [reflexivity| |reflexivity|exact Hg|].
    + by rewrite list_lookup_alter_eq, Hp.
    + rewrite (list_find_alter_stable _ _ pid _ pid p Hf); [by rewrite decide_True|].
      done.
Qed.

Lemma handlePaymentSuccess_returns_completed (event : SuccessEvent)
    (db db1 : Db) (r : option PaymentDoc) :
  handlePaymentSuccess event db = (Ok r, db1) →
  ∃ pid p, r = Some (pid, p) ∧ payments db1 !! pid = Some p ∧
           Payment.status p = "completed".
Proof.
  unfold handlePaymentSuccess. unfold_m. rewrite resolvePayment_strategy.
  destruct (lookup_with _ db) as [[pid p]|] eqn:Hl; [|done].
  apply lookup_with_Some in Hl as Hp.
  case_status p Hc.
  - intros [= <- <-]. by exists pid, p.
  - unfold_repo. unfold PaymentRepo.read. cbn.
    rewrite Hp, (bool_decide_eq_false_2 _ Hc). cbn.
    rewrite list_lookup_alter_eq, Hp. cbn. intros [= <- <-]. cbn.
    eexists pid, _. split_and!; [reflexivity| |reflexivity].
    by rewrite list_lookup_alter_eq, Hp.
Qed.

(** X9.  When [verifyRazorpayPayment] has returned, a second call with
    the same request returns the same payment and leaves the store,
    journal included, as the first call left it. *)
Theorem verifyRazorpayPayment_idempotent (gw : Gateway) (params : VerifyParams)
    (db db1 : Db) (r : option PaymentDoc) :
  verifyRazorpayPayment gw params db = (Ok r, db1) →
  verifyRazorpayPayment gw params db1 = (Ok r, db1).
Proof.
  intros Hfirst.
  destruct (verifyRazorpayPayment_returns_completed _ _ _ _ _ Hfirst)
    as (pid & p & -> & _ & Hs & _ & Hf).
  assert (verifyPaymentSignature gw (v_razorpayOrderId params)
            (v_razorpayPaymentId params) (v_razorpaySignature params) = true) as Hv.
  { unfold verifyRazorpayPayment in Hfirst. unfold_m.
    by destruct (verifyPaymentSignature gw _ _ _). }
  unfold verifyRazorpayPayment. unfold_m. unfold_repo. rewrite Hv. cbn.
  by rewrite Hf, (bool_decide_eq_true_2 _ Hs).
Qed.

Lemma verifyRazorpayPayment_idempotent_witness :
  let first := verifyRazorpayPayment (working_gateway "gw_1") callback_gw_1
                 pending_gateway_db in
  verifyRazorpayPayment (working_gateway "gw_1") callback_gw_1 first.2 = first.
Proof.
  cbn zeta.
  destruct (verifyRazorpayPayment (working_gateway "gw_1") callback_gw_1
              pending_gateway_db) as [r db1] eqn:Hfirst.
  vm_compute in Hfirst. injection Hfirst as <- <-.
  apply (verifyRazorpayPayment_idempotent _ _ pending_gateway_db).
  vm_compute. reflexivity.
Defined.

(** X10.  The client callback and the webhook agree: once one of them has
    completed a payment, the other one, resolving that payment, returns it
    and writes nothing. *)
Theorem completion_paths_agree (gw : Gateway) (params : VerifyParams)
    (event : SuccessEvent) (db db1 : Db) (r : option PaymentDoc) :
  (verifyRazorpayPayment gw params db = (Ok r, db1) →
   lookup_with (success_strategy event) db1 = r →
   handlePaymentSuccess event db1 = (Ok r, db1)) ∧
  (handlePaymentSuccess event db = (Ok r, db1) →
   verifyPaymentSignature gw (v_razorpayOrderId params) (v_razorpayPaymentId params)
     (v_razorpaySignature params) = true →
   PaymentRepo.getPaymentByRazorpayOrderId (v_razorpayOrderId params) db1 = (Ok r, db1) →
   verifyRazorpayPayment gw params db1 = (Ok r, db1)).
Proof.
  split.
  - intros Hfirst Hl.
    destruct (verifyRazorpayPayment_returns_completed _ _ _ _ _ Hfirst)
      as (pid & p & -> & _ & Hs & _).
    unfold handlePaymentSuccess. unfold_m. rewrite resolvePayment_strategy.
    fold (success_strategy event).
    by rewrite Hl, (bool_decide_eq_true_2 _ Hs).
  - intros Hfirst Hv Hf. injection Hf as Hf.
    destruct (handlePaymentSuccess_returns_completed _ _ _ _ Hfirst)
      as (pid & p & -> & _ & Hs).
    unfold verifyRazorpayPayment. unfold_m. unfold_repo. rewrite Hv. cbn.
    by rewrite Hf, (bool_decide_eq_true_2 _ Hs).
Qed.

Lemma completion_paths_agree_witness :
  let after_callback := verifyRazorpayPayment (working_gateway "gw_1") callback_gw_1
                          pending_gateway_db in
  handlePaymentSuccess webhook_pay_9 after_callback.2 = after_callback.
Proof.
  cbn zeta.
  destruct (verifyRazorpayPayment (working_gateway "gw_1") callback_gw_1
              pending_gateway_db) as [r db1] eqn:Hfirst.
  vm_compute in Hfirst. injection Hfirst as <- <-.
  refine (proj1 (completion_paths_agree (working_gateway "gw_1") callback_gw_1
                   webhook_pay_9 pending_gateway_db _ _) _ _).
  - vm_compute. reflexivity.
  - reflexivity.
Defined.

(** ** Failure events *)

Lemma fail_twice (c m r e : option string) (p : Payment.t) :
  Payment.fail c m r e (Payment.fail c m r e p) = Payment.fail c m r e p.
Proof. unfold Payment.fail. cbn. by destruct c, m, r, e. Qed.

(** X11.  [handlePaymentFailure] marks the payment it resolves failed,
    records each of the four failure fields the event carries (error code,
    error message, failure reason and the webhook payload; a field the
    event does not carry keeps its stored value), leaves every other field
    of the payment as it was (identity, method, transaction ids, refund)
    and sets the payment's order to payment_failed / failed; delivered a
    second time, the same event leaves both ledgers as the first delivery
    left them and returns the same payment. *)
Theorem handlePaymentFailure_repeatable (event : FailureEvent) (db : Db)
    (pid : nat) (p : Payment.t) :
  lookup_with (failure_strategy event) db = Some (pid, p) →
  ∃ p' db1 db2,
    handlePaymentFailure event db = (Ok (Some (pid, p')), db1) ∧
    payments db1 = <[pid := p']> (payments db) ∧
    Payment.status p' = "failed" ∧
    Payment.errorCode p' = Payment.keep (f_errorCode event) (Payment.errorCode p) ∧
    Payment.errorMessage p' =
      Payment.keep (f_errorMessage event) (Payment.errorMessage p) ∧
    Payment.failureReason p' =
      Payment.keep (f_failureReason event) (Payment.failureReason p) ∧
    Payment.gatewayResponse p' =
      Payment.keep (f_webhookData event) (Payment.gatewayResponse p) ∧
    keeps_identity p p' ∧
    Payment.method p' = Payment.method p ∧
    Payment.transactionId p' = Payment.transactionId p ∧
    Payment.gatewayTransactionId p' = Payment.gatewayTransactionId p ∧
    Payment.refundAmount p' = Payment.refundAmount p ∧
    Payment.refundTransactionId p' = Payment.refundTransactionId p ∧
    orders db1 = alter (Order.set_status "payment_failed" "failed") (Payment.orderId p)
                   (orders db) ∧
    handlePaymentFailure event db1 = (Ok (Some (pid, p')), db2) ∧
    payments db2 = payments db1 ∧
    orders db2 = orders db1.
Proof.
  intros Hl. pose proof (lookup_with_Some _ _ _ _ Hl) as Hp.
  set (f := Payment.fail (f_errorCode event) (f_errorMessage event)
              (f_failureReason event) (f_webhookData event)).
  assert (lookup_with (failure_strategy event)
            (mkDb (alter f pid (payments db))
               (alter (Order.set_status "payment_failed" "failed") (Payment.orderId p)
                  (orders db))
               ((journal db ++ [PaymentWritten pid]) ++
                [OrderStatusWritten (Payment.orderId p) "payment_failed" "failed"]))
          = Some (pid, f p)) as Hl1.
  { apply lookup_with_stable; try done.
    intros t Ht. rewrite Ht in Hl. cbn in Hl.
    by apply list_find_Some in Hl as (_ & Hq & _). }
  unfold failure_strategy in *.
  unfold handlePaymentFailure. unfold_m. rewrite !resolvePayment_strategy, Hl.
  unfold_repo. unfold PaymentRepo.read, PaymentRepo.write, log. cbn.
  rewrite list_lookup_alter_eq, Hp. cbn. fold f.
  eexists _, _, _. split; [reflexivity|]. cbn.
  rewrite resolvePayment_strategy, Hl1. cbn.
  rewrite !list_lookup_alter_eq, Hp. cbn.
  split_and!; try reflexivity.
  - by apply alter_as_insert.
  - by repeat split.
  - subst f. by rewrite fail_twice.
  - cbn. rewrite list_alter_alter_eq. apply list_alter_ext; [|done].
    intros x _. subst f. cbn. apply fail_twice.
  - cbn. rewrite list_alter_alter_eq. by apply list_alter_ext.
Qed.

Lemma handlePaymentFailure_repeatable_witness :
  ∃ p' db1 db2,
    handlePaymentFailure declined_for_O1 pending_gateway_db = (Ok (Some (0, p')), db1) ∧
    Payment.status p' = "failed" ∧
    Payment.errorCode p' = Some "BAD_REQUEST_ERROR" ∧
    Payment.errorMessage p' = Some "Payment declined by the bank" ∧
    Payment.failureReason p' = Some "payment_failed" ∧
    Payment.gatewayResponse p' = Some "payment.failed" ∧
    Payment.razorpayOrderId p' = Some "gw_1" ∧
    Payment.transactionId p' = None ∧
    (Order.status <$> orders db1 !! 0) = Some "payment_failed" ∧
    handlePaymentFailure declined_for_O1 db1 = (Ok (Some (0, p')), db2) ∧
    payments db2 = payments db1.
Proof.
  destruct (handlePaymentFailure_repeatable declined_for_O1 pending_gateway_db 0
              (gateway_payment_O1 "pending") eq_refl)
    as (p' & db1 & db2 & H1 & _ & Hs & Hc & Hm & Hr & Hw & Hid & _ & Ht & _ & _ & _
        & Ho & H2 & Hp & _).
  destruct Hid as (_ & _ & _ & _ & _ & _ & Hg & _).
  exists p', db1, db2.
  split_and!; [exact H1|exact Hs|exact Hc|exact Hm|exact Hr|exact Hw|exact Hg|exact Ht
              | |exact H2|exact Hp].
  by rewrite Ho.
Defined.

(** ** Retry *)

(** X12.  [retryPayment] throws NotFound when the order has no payment and
    InvalidState when its payment is completed, in both cases leaving the
    store untouched.  Otherwise it writes status pending to that payment
    and nothing else to either ledger, and returns the stored checkout URL
    with the payment id when there is a URL. *)
Theorem retryPayment_flow (db : Db) (orderId : nat) :
  match list_find (λ p, Payment.orderId p = orderId) (payments db) with
  | None => retryPayment orderId db = (Err PaymentNotFound, db)
  | Some (pid, p) =>
      if decide (Payment.status p = "completed") then
        retryPayment orderId db = (Err RetryInvalidState, db)
      else
        ∃ db',
          retryPayment orderId db =
            (match Payment.checkoutUrl p with
             | Some checkoutUrl =>
                 if decide (checkoutUrl = "") then Err NoCheckoutAvailable
                 else Ok (checkoutUrl, pid)
             | None => Err NoCheckoutAvailable
             end, db') ∧
          payments db' = <[pid := Payment.set_status "pending" p]> (payments db) ∧
          orders db' = orders db ∧
          gateway_calls db' = gateway_calls db
  end.
Proof.
  unfold retryPayment. unfold_m. unfold_repo.
  destruct (list_find _ (payments db)) as [[pid p]|] eqn:Hf; [|done].
  apply list_find_Some in Hf as (Hp & _ & _).
  case_decide as Hc.
  - by rewrite (bool_decide_eq_true_2 _ Hc).
  - rewrite (bool_decide_eq_false_2 _ Hc). cbn.
    assert (alter (Payment.set_status "pending") pid (payments db)
            = <[pid := Payment.set_status "pending" p]> (payments db)) as Hw
      by by apply alter_as_insert.
    assert (∀ j, count_calls (j ++ [PaymentWritten pid]) = count_calls j) as Hj.
    { intros j. rewrite count_calls_app. unfold count_calls. cbn. lia. }
    unfold truthy. destruct (Payment.checkoutUrl p) as [u|]; cbn.
    + case_decide as Hu.
      * subst u. cbn. eexists. split; [reflexivity|]. cbn.
        unfold gateway_calls. cbn. by rewrite Hj.
      * apply String.eqb_neq in Hu as ->. cbn. eexists. split; [reflexivity|]. cbn.
        unfold gateway_calls. cbn. by rewrite Hj.
    + eexists. split; [reflexivity|]. cbn. unfold gateway_calls. cbn. by rewrite Hj.
Qed.

Lemma retryPayment_flow_witness :
  ∃ db',
    retryPayment 0 failed_with_url_db = (Ok ("https://pay.example/chk_1", 0), db') ∧
    status_at db' 0 = Some "pending" ∧
    (Order.status <$> orders db' !! 0) = Some "payment_failed".
Proof.
  pose proof (retryPayment_flow failed_with_url_db 0) as H. cbn in H.
  destruct H as (db' & Hrun & Hp & Ho & _).
  exists db'. split_and!; [exact Hrun| |].
  - unfold status_at. by rewrite Hp.
  - by rewrite Ho.
Defined.

(** ** Starting a gateway checkout *)





(** ** Reading payments back *)

(** X15.  A successful [processCodPayment] makes the payment readable:
    before the call [getPaymentByOrderId] throws NotFound for the order;
    after it, [getPaymentById] with the returned id and
    [getPaymentByOrderId] with the order id both return the stored
    payment, completed and paid by cod, without writing anything. *)
Theorem cod_payment_readable (db db' : Db) (orderId pid : nat) (created : Payment.t) :
  processCodPayment orderId db = (Ok (pid, created), db') →
  getPaymentByOrderId orderId db
    = (Err (NotFoundError "Payment not found for this order"), db) ∧
  ∃ stored,
    getPaymentById pid db' = (Ok (pid, stored), db') ∧
    getPaymentByOrderId orderId db' = (Ok (pid, stored), db') ∧
    Payment.status stored = "completed" ∧
    Payment.provider stored = "cod" ∧
    Payment.orderId stored = orderId.
Proof.
  unfold processCodPayment, getPaymentByOrderId, getPaymentById.
  unfold_m. unfold_repo. unfold PaymentRepo.read. cbn.
  destruct (orders db !! orderId) as [order|] eqn:Ho; cbn; [|done].
  destruct (list_find _ (payments db)) as [[i p]|] eqn:Hf; [done|].
  rewrite createPayment_eq. cbn. intros [= <- <- <-]. split; [done|]. cbn.
  rewrite list_lookup_middle by done. cbn.
  erewrite list_find_snoc; [|done|done].
  eexists. by split_and!.
Qed.

Lemma cod_payment_readable_witness :
  ∃ stored db',
    getPaymentById 0 db' = (Ok (0, stored), db') ∧
    getPaymentByOrderId 0 db' = (Ok (0, stored), db') ∧
    Payment.status stored = "completed".
Proof.
  destruct (processCodPayment 0 fresh_order_db) as [r db'] eqn:Hrun.
  vm_compute in Hrun. injection Hrun as <- <-.
  destruct (cod_payment_readable fresh_order_db _ 0 0 _ eq_refl)
    as (_ & stored & H1 & H2 & Hs & _).
  eexists stored, _. split_and!; [exact H1|exact H2|exact Hs].
Defined.

(** X16.  The payment id of a checkout names a stored payment of that
    order, and that payment holds the gateway order id of the checkout
    whenever this id is not empty. *)
Theorem checkout_payment_readable (key : string) (gw : Gateway) (db db' : Db)
    (orderId : nat) (checkout : Checkout) :
  initiateRazorpayPayment key gw orderId db = (Ok checkout, db') →
  ∃ p,
    getPaymentById (paymentId checkout) db' = (Ok (paymentId checkout, p), db') ∧
    Payment.orderId p = orderId ∧
    (razorpayOrderId checkout ≠ "" →
     Payment.razorpayOrderId p = Some (razorpayOrderId checkout)).
Proof.
  intros Hrun. unfold getPaymentById. unfold_m. unfold_repo. unfold PaymentRepo.read.
  destruct (orders db !! orderId) as [order|] eqn:Ho.
  - destruct (existing_gateway_order db orderId) as [[pid g]|] eqn:He.
    + rewrite (initiate_existing_eq key gw db orderId order pid g Ho He) in Hrun.
      injection Hrun as <- <-. cbn.
      unfold existing_gateway_order in He.
      destruct (list_find _ (payments db)) as [[i p]|] eqn:Hf; [|done].
      destruct (truthy (Payment.razorpayOrderId p)) eqn:Ht; [|done].
      injection He as -> <-.
      apply list_find_Some in Hf as (Hp & Hid & _). rewrite Hp. cbn.
      exists p. split_and!; [done|done|]. intros _.
      unfold truthy in Ht. by destruct (Payment.razorpayOrderId p).
    + rewrite (initiate_fresh_eq key gw db orderId order Ho He) in Hrun.
      cbn zeta in Hrun. destruct (createOrder gw _ _ _ _) as [g|]; [|done].
      injection Hrun as <- <-. cbn. rewrite list_lookup_middle by done. cbn.
      eexists. split_and!; [reflexivity| |].
      * apply stored_gateway_status.
      * intros Hg. by rewrite (stored_gateway_payment _ _ _ _ Hg).
  - unfold initiateRazorpayPayment in Hrun. unfold_m. unfold_repo. cbn in Hrun.
    by rewrite Ho in Hrun.
Qed.

Lemma checkout_payment_readable_witness :
  ∃ p db',
    getPaymentById 0 db' = (Ok (0, p), db') ∧
    Payment.razorpayOrderId p = Some "gw_1".
Proof.
  destruct (initiateRazorpayPayment "rzp_key" (working_gateway "gw_1") 0 fresh_order_db)
    as [r db'] eqn:Hrun.
  vm_compute in Hrun. injection Hrun as <- <-.
  destruct (checkout_payment_readable "rzp_key" (working_gateway "gw_1")
              fresh_order_db _ 0 _ eq_refl) as (p & H1 & _ & Hg).
  eexists p, _. split; [exact H1|]. apply Hg. discriminate.
Defined.

(** ** Product image upload *)

Import S3Service.

Lemma replace_runs_no_space (in_run : bool) (s : jsstring) :
  no_space (replace_runs in_run s).
Proof.
  revert in_run. induction s as [|c s IH]; intros in_run; cbn; [constructor|].
  destruct (is_space c) eqn:Hc.
  - destruct in_run; [apply IH|]. constructor; [done|apply IH].
  - constructor; [done|apply IH].
Qed.

Lemma replace_runs_fixed (in_run : bool) (s : jsstring) :
  no_space s → replace_runs in_run s = s.
Proof.
  intros Hs. revert in_run.
  induction Hs as [|c s Hc _ IH]; intros in_run; cbn; [done|].
  by rewrite Hc, IH.
Qed.

Lemma replace_runs_length (in_run : bool) (s : jsstring) :
  (length (replace_runs in_run s) ≤ length s)%nat.
Proof.
  revert in_run. induction s as [|c s IH]; intros in_run; cbn; [done|].
  destruct (is_space c); [destruct in_run|]; cbn;
    [specialize (IH true)|specialize (IH true)|specialize (IH false)]; lia.
Qed.

Lemma replace_runs_keeps (in_run : bool) (s : list N) :
  filter (λ c, is_space c = false) s `sublist_of` replace_runs in_run s.
Proof.
  revert in_run. induction s as [|c s IH]; intros in_run; [done|].
  rewrite filter_cons. cbn [replace_runs]. destruct (is_space c) eqn:Hc.
  - case_decide; [done|].
    destruct in_run; [apply IH|]. by apply sublist_cons.
  - case_decide; [|done]. by apply sublist_skip.
Qed.

(** X17.  The cleaned file name contains no white space, is no longer
    than the original name and keeps its other code units in their order;
    a name without white space is left as it is, so cleaning twice is
    cleaning once. *)
Theorem replace_whitespace_clean (name : list N) :
  no_space (replace_whitespace name) ∧
  (length (replace_whitespace name) ≤ length name)%nat ∧
  filter (λ c, is_space c = false) name `sublist_of` replace_whitespace name ∧
  (no_space name → replace_whitespace name = name) ∧
  replace_whitespace (replace_whitespace name) = replace_whitespace name.
Proof.
  unfold replace_whitespace. split_and!.
  - apply replace_runs_no_space.
  - apply replace_runs_length.
  - apply replace_runs_keeps.
  - apply replace_runs_fixed.
  - apply replace_runs_fixed, replace_runs_no_space.
Qed.

Lemma replace_whitespace_clean_witness :
  no_space (replace_whitespace (originalname two_words_png)) ∧
  replace_whitespace (lit "red_rose.png") = lit "red_rose.png".
Proof.
  destruct (replace_whitespace_clean (originalname two_words_png)) as (Hclean & _).
  destruct (replace_whitespace_clean (lit "red_rose.png")) as (_ & _ & _ & Hfixed & _).
  split; [exact Hclean|]. apply Hfixed.
  by vm_compute; repeat constructor.
Defined.

Example replace_whitespace_runs :
  replace_whitespace (lit "red  rose.png") = lit "red_rose.png" ∧
  replace_whitespace (lit " a b ") = lit "_a_b_" ∧
  replace_whitespace [9%N; 160%N; 8232%N; 65279%N; 120%N] = lit "_x".
Proof. by vm_compute. Qed.

Lemma no_space_app (s t : jsstring) : no_space s → no_space t → no_space (s ++ t).
Proof. intros. by apply Forall_app. Qed.

Lemma digit_no_space (x : N) : is_space (Ascii.N_of_ascii (pretty_N_char x)) = false.
Proof. unfold pretty_N_char. by repeat case_match. Qed.

Lemma pretty_N_go_no_space (x : N) (s : string) :
  no_space (lit s) → no_space (lit (pretty_N_go x s)).
Proof.
  revert s. induction (N.lt_wf_0 x) as [x _ IH]; intros s Hs.
  destruct (decide (0 < x)%N) as [Hx|Hx].
  - rewrite pretty_N_go_step by done. apply IH.
    + by apply N.div_lt.
    + constructor; [apply digit_no_space|done].
  - assert (x = 0%N) as -> by lia. by rewrite pretty_N_go_0.
Qed.

(** A time stamp is written with digits. *)
Lemma timestamp_no_space (now : N) : no_space (lit (pretty now)).
Proof.
  unfold pretty, pretty_N. case_decide.
  - by repeat constructor.
  - apply pretty_N_go_no_space. constructor.
Qed.

(** X18.  The object is stored under the key
    [mahaveer-petals/products/<time>-<cleaned name>], which contains no
    white space whatever the file is called.  When the store accepts the
    object, the result reports that very key, the URL ending in it and the
    original, uncleaned file name; when the store throws, the caller gets
    the service's own InternalServerError. *)
Theorem upload_key_has_no_space (bucket region : jsstring)
    (putObject : PutObject → Result unit) (now : N) (file : File) :
  let request :=
    mkPut bucket
      (lit "mahaveer-petals/products/" ++ lit (pretty now) ++ lit "-"
         ++ replace_whitespace (originalname file))
      (buffer file) (mimetype file) in
  no_space (Key request) ∧
  match putObject request with
  | Ok _ =>
      ∃ r, uploadProductImageToS3 bucket region putObject now file = Ok r ∧
           key r = Key request ∧
           url r = lit "https://" ++ bucket ++ lit ".s3." ++ region
                     ++ lit ".amazonaws.com/" ++ key r ∧
           filename r = originalname file ∧
           u_size r = size file ∧
           mimeType r = mimetype file
  | Err _ =>
      uploadProductImageToS3 bucket region putObject now file
        = Err (InternalServerError "Failed to upload product image to S3")
  end.
Proof.
  cbn zeta. split.
  - cbn [Key]. repeat apply no_space_app.
    + by vm_compute; repeat constructor.
    + apply timestamp_no_space.
    + by vm_compute; repeat constructor.
    + apply replace_runs_no_space.
  - unfold uploadProductImageToS3.
    destruct (putObject _) as [[]|e]; [|done].
    eexists. by split_and!.
Qed.

Lemma upload_key_has_no_space_witness :
  ∃ r, uploadProductImageToS3 (lit "shop") (lit "ap-south-1") s3_accepting
         1700000000000 two_words_png = Ok r ∧
       no_space (key r) ∧
       filename r = lit "red  rose.png".
Proof.
  destruct (upload_key_has_no_space (lit "shop") (lit "ap-south-1") s3_accepting
              1700000000000 two_words_png) as [Hclean Hrun].
  cbn in Hrun. destruct Hrun as (r & Hr & Hk & _ & Hf & _).
  exists r. split_and!; [exact Hr| |exact Hf]. rewrite Hk. exact Hclean.
Defined.

Example upload_two_words :
  key <$> (match uploadProductImageToS3 (lit "shop") (lit "ap-south-1") s3_accepting
                   1700000000000 two_words_png with
           | Ok r => Some r | Err _ => None end)
  = Some (lit "mahaveer-petals/products/1700000000000-red_rose.png").
Proof. by vm_compute. Qed.
